(** * Text Summariser extension: validation, sanitisation, parsing, orchestration

    A shallow embedding of [src/background.js] (the service worker) and of the
    shared utilities that follow it in the same file (utils.js), with the
    properties of the specification stated over it.

    JavaScript strings are sequences of UTF-16 code units; a code unit is a
    number [N].  JavaScript values are an inductive type; code that can throw
    returns a [completion]. *)

From Stdlib Require Import Strings.String Strings.Ascii Numbers.DecimalString.
From Stdlib Require Import Bool Arith NArith ZArith QArith Lia List.
Import ListNotations.

Close Scope Q_scope.

#[local] Set Warnings "-register-all,-abstract-large-number".

Set Implicit Arguments.

(* ================================================================== *)
(** ** Strings *)

Definition code_unit := N.
Definition jsstring := list code_unit.

(** An ASCII literal of the source as a sequence of code units. *)
Definition lit (s : string) : jsstring :=
  map N_of_ascii (list_ascii_of_string s).

Definition LF : code_unit := 10%N.
Definition SPACE : code_unit := 32%N.

(** [WhiteSpace] and [LineTerminator] of ECMAScript: what [String.prototype.trim]
    strips and what the regular-expression class [\s] matches. *)
Definition is_whitespace (c : code_unit) : bool :=
  ((9 <=? c) && (c <=? 13) || (c =? 32) || (c =? 160) || (c =? 5760)
   || (8192 <=? c) && (c <=? 8202) || (c =? 8232) || (c =? 8233)
   || (c =? 8239) || (c =? 8287) || (c =? 12288) || (c =? 65279))%N.

(** The class [\n]. *)
Definition is_newline (c : code_unit) : bool := (c =? LF)%N.

(** The class [[^\S\n]]: white space other than the line feed. *)
Definition is_blank (c : code_unit) : bool :=
  is_whitespace c && negb (is_newline c).

Fixpoint drop_while (p : code_unit -> bool) (s : jsstring) : jsstring :=
  match s with
  | [] => []
  | c :: s' => if p c then drop_while p s' else s
  end.

Fixpoint take_while (p : code_unit -> bool) (s : jsstring) : jsstring :=
  match s with
  | [] => []
  | c :: s' => if p c then c :: take_while p s' else []
  end.

(** The [length] property of a string, a number. *)
Definition str_length (s : jsstring) : Z := Z.of_nat (length s).

(** [String.prototype.trim]. *)
Definition trim (s : jsstring) : jsstring :=
  rev (drop_while is_whitespace (rev (drop_while is_whitespace s))).

(** [String.prototype.startsWith]. *)
Fixpoint startsWith (prefix s : jsstring) : bool :=
  match prefix, s with
  | [], _ => true
  | _ :: _, [] => false
  | a :: prefix', b :: s' => (a =? b)%N && startsWith prefix' s'
  end.

(** [String.prototype.includes]: the needle starts at some position. *)
Fixpoint includes (needle s : jsstring) : bool :=
  startsWith needle s ||
  match s with
  | [] => false
  | _ :: s' => includes needle s'
  end.

(** *** Global replacement by a regular expression

    The three expressions of the source, [/[^\S\n]+/g], [/\n{3,}/g] and
    [/\s+/g], are a character class under a greedy quantifier with a lower
    bound of at least one.  [exec] is one match attempt at the start of the
    subject: the longest prefix inside the class, accepted when it reaches the
    lower bound.  [replace_from] is the loop of [String.prototype.replace] with
    the [g] flag: on a match the replacement is emitted and the scan resumes
    after the match, otherwise the current code unit is copied and the scan
    advances by one. *)

Record pattern := Pattern {
  class : code_unit -> bool;
  at_least : nat
}.

Definition exec (re : pattern) (s : jsstring) : option (jsstring * jsstring) :=
  let m := take_while (class re) s in
  if (1 <=? length m) && (at_least re <=? length m)
  then Some (m, drop_while (class re) s)
  else None.

Fixpoint replace_from (fuel : nat) (re : pattern) (by_ : jsstring)
  (s : jsstring) : jsstring :=
  match fuel with
  | O => s
  | S fuel' =>
    match s with
    | [] => []
    | c :: s' =>
      match exec re s with
      | Some (_, rest) => by_ ++ replace_from fuel' re by_ rest
      | None => c :: replace_from fuel' re by_ s'
      end
    end
  end.

(** The scan consumes at least one code unit per step, so the length of the
    subject is enough fuel (lemma [replace_from_fuel] below). *)
Definition replace (re : pattern) (by_ : jsstring) (s : jsstring) : jsstring :=
  replace_from (length s) re by_ s.

Definition blank_run : pattern := Pattern is_blank 1.        (* /[^\S\n]+/g *)
Definition newline_run3 : pattern := Pattern is_newline 3.   (* /\n{3,}/g   *)
Definition whitespace_run : pattern := Pattern is_whitespace 1. (* /\s+/g  *)

(* ================================================================== *)
(** ** Values *)

(** A JavaScript number, as far as this code observes one: it is only tested
    for truthiness and against zero. *)
Inductive number :=
| NaN
| Num (q : Q).

Inductive value :=
| VUndefined
| VNull
| VBool (b : bool)
| VNumber (n : number)
| VString (s : jsstring)
| VArray (elements : list value)
| VObject (fields : list (jsstring * value))
| VError (message : jsstring).

Definition number_is_zero (n : number) : bool :=
  match n with
  | NaN => false
  | Num q => Qeq_bool q 0
  end.

(** ToBoolean. *)
Definition truthy (v : value) : bool :=
  match v with
  | VUndefined | VNull => false
  | VBool b => b
  | VNumber NaN => false
  | VNumber n => negb (number_is_zero n)
  | VString s => negb (length s =? 0)
  | VArray _ | VObject _ | VError _ => true
  end.

(** What was thrown: an [Error] with its message, or a [TypeError] raised by
    the engine (its message is the engine's own). *)
Inductive exn :=
| Err (message : jsstring)
| TypeErr.

Inductive completion (A : Type) :=
| Normal (a : A)
| Throw (e : exn).
Arguments Normal {A} a.
Arguments Throw {A} e.

Definition cbind {A B} (c : completion A) (k : A -> completion B) : completion B :=
  match c with
  | Normal a => k a
  | Throw e => Throw e
  end.

(** [try { c } catch (error) { handler error }]. *)
Definition try_catch {A} (c : completion A) (handler : exn -> completion A)
  : completion A :=
  match c with
  | Normal a => Normal a
  | Throw e => handler e
  end.

Notation "x <- c ;; k" := (cbind c (fun x => k))
  (at level 61, c at next level, right associativity).

(** [a === b] on strings. *)
Fixpoint string_eqb (a b : jsstring) : bool :=
  match a, b with
  | [], [] => true
  | x :: a', y :: b' => (x =? y)%N && string_eqb a' b'
  | _, _ => false
  end.

Fixpoint get_field (key : jsstring) (fields : list (jsstring * value))
  : option value :=
  match fields with
  | [] => None
  | (k, v) :: rest => if string_eqb k key then Some v else get_field key rest
  end.

Definition of_length (n : nat) : value := VNumber (Num (inject_Z (Z.of_nat n))).

(** Property read [v.name] for a name that is not an index: own fields of an
    object, [length] of a string or of an array, [message] of an error;
    reading a property of [undefined] or [null] throws. *)
Definition get (v : value) (name : jsstring) : completion value :=
  match v with
  | VUndefined | VNull => Throw TypeErr
  | VBool _ | VNumber _ => Normal VUndefined
  | VString s =>
    Normal (if string_eqb name (lit "length") then of_length (length s)
            else VUndefined)
  | VArray l =>
    Normal (if string_eqb name (lit "length") then of_length (length l)
            else VUndefined)
  | VObject fields =>
    Normal (match get_field name fields with Some x => x | None => VUndefined end)
  | VError m =>
    Normal (if string_eqb name (lit "message") then VString m else VUndefined)
  end.

(** Indexed read [v[i]]. *)
Definition get_index (v : value) (i : nat) : completion value :=
  match v with
  | VUndefined | VNull => Throw TypeErr
  | VString s =>
    Normal (match nth_error s i with Some c => VString [c] | None => VUndefined end)
  | VArray l =>
    Normal (match nth_error l i with Some x => x | None => VUndefined end)
  | VObject fields =>
    Normal (match get_field (lit (NilEmpty.string_of_uint (Nat.to_uint i))) fields with
            | Some x => x
            | None => VUndefined
            end)
  | VBool _ | VNumber _ | VError _ => Normal VUndefined
  end.

(** Optional chaining [v?.name]. *)
Definition get_optional (v : value) (name : jsstring) : completion value :=
  match v with
  | VUndefined | VNull => Normal VUndefined
  | _ => get v name
  end.

(** [v === 0]. *)
Definition strict_equal_zero (v : value) : bool :=
  match v with
  | VNumber n => number_is_zero n
  | _ => false
  end.

(** The method call [v.trim()]: only strings have the method. *)
Definition call_trim (v : value) : completion jsstring :=
  match v with
  | VString s => Normal (trim s)
  | _ => Throw TypeErr
  end.

(** The method call [v.startsWith(prefix)]. *)
Definition call_startsWith (v : value) (prefix : jsstring) : completion bool :=
  match v with
  | VString s => Normal (startsWith prefix s)
  | _ => Throw TypeErr
  end.

(** The result object [{ valid, error }] of [validateText]; [error] is a
    string or [null]. *)
Record validation := Validation {
  valid : bool;
  error : option jsstring
}.

(* ================================================================== *)
(** ** The world of the service worker *)

(** The argument of [fetch]: the endpoint, the options and the fields of the
    request body (before [JSON.stringify]). *)
Record request := Request {
  endpoint : jsstring;
  method : jsstring;
  content_type : jsstring;
  authorization : jsstring;
  model : jsstring;
  system_content : jsstring;
  user_content : jsstring;
  max_tokens : Z;
  temperature : Q
}.

(** What the code reads of a [Response]: [ok], [status] and the outcome of
    [response.json()]. *)
Record response := Response {
  ok : bool;
  status : N;
  json : completion value
}.

Inductive fetch_result :=
| Rejected (e : exn)
| Resolved (r : response).

(** [chrome.storage.local] and the requests sent so far, newest first.
    Writing to the store always succeeds; [console.error] is not part of the
    world. *)
Record world := World {
  local_storage : list (jsstring * value);
  sent : list request
}.

Fixpoint remove_field (key : jsstring) (fields : list (jsstring * value))
  : list (jsstring * value) :=
  match fields with
  | [] => []
  | (k, v) :: rest =>
    if string_eqb k key then remove_field key rest
    else (k, v) :: remove_field key rest
  end.

Definition set_field (key : jsstring) (v : value)
  (fields : list (jsstring * value)) : list (jsstring * value) :=
  (key, v) :: remove_field key fields.

(** [chrome.storage.local.set(items)]: every key of [items] is written, the
    other keys are kept. *)
Definition storage_set (items : list (jsstring * value)) (w : world) : world :=
  World (fold_left (fun st kv => set_field (fst kv) (snd kv) st) items
           (local_storage w))
        (sent w).

(** State and exceptions together, for the [async] functions. *)
Definition io (A : Type) := world -> completion A * world.

Definition io_ret {A} (a : A) : io A := fun w => (Normal a, w).
Definition io_throw {A} (e : exn) : io A := fun w => (Throw e, w).
Definition io_lift {A} (c : completion A) : io A := fun w => (c, w).
Definition io_bind {A B} (m : io A) (k : A -> io B) : io B :=
  fun w =>
    match m w with
    | (Normal a, w') => k a w'
    | (Throw e, w') => (Throw e, w')
    end.
Definition io_try {A} (m : io A) (handler : exn -> io A) : io A :=
  fun w =>
    match m w with
    | (Normal a, w') => (Normal a, w')
    | (Throw e, w') => handler e w'
    end.

Notation "x <~ m ;; k" := (io_bind m (fun x => k))
  (at level 61, m at next level, right associativity).

(* ================================================================== *)
(** ** background.js *)

Module Background.

Definition validateText (text : value) : validation :=
  match text with
  | VString s =>
    if negb (truthy text) then
      Validation false (Some (lit "No text provided"))
    else
      let trimmedText := trim s in
      if (str_length trimmedText <? 10)%Z then
        Validation false
          (Some (lit "Selected text is too short. Please select at least 10 characters."))
      else if (10000 <? str_length trimmedText)%Z then
        Validation false
          (Some (lit "Selected text is too long. Please select less than 10,000 characters."))
      else Validation true None
  | _ => (* [!text || typeof text !== 'string'] *)
    Validation false (Some (lit "No text provided"))
  end.

Definition sanitizeText (text : value) : completion jsstring :=
  if negb (truthy text) then Normal []
  else
    trimmed <- call_trim text ;;
    Normal (replace newline_run3 [LF; LF] (replace blank_run [SPACE] trimmed)).

Definition createSummaryPrompt (text : jsstring) : jsstring :=
  lit "Please provide a concise summary of the following text in 2-3 sentences:"
  ++ [LF; LF] ++ text.

Definition parseApiResponse (response : value) : completion jsstring :=
  try_catch
    (rejected <-
       (if negb (truthy response) then Normal true
        else
          choices <- get response (lit "choices") ;;
          if negb (truthy choices) then Normal true
          else
            len <- get choices (lit "length") ;;
            Normal (strict_equal_zero len)) ;;
     if rejected : bool then Throw (Err (lit "Invalid response from API"))
     else
       choices <- get response (lit "choices") ;;
       first <- get_index choices 0 ;;
       message <- get first (lit "message") ;;
       summary <- get_optional message (lit "content") ;;
       if negb (truthy summary) then Throw (Err (lit "Invalid response from API"))
       else call_trim summary)
    (fun _ => Throw (Err (lit "Invalid response from API"))).

Definition formatErrorMessage (error : value) : jsstring :=
  match error with
  | VString s => s
  | VError message =>
    if truthy (VString message) then message
    else lit "An error occurred while generating the summary."
  | _ => lit "An error occurred while generating the summary."
  end.

Section Worker.

(** The transport, the clock and the parts of the engine the worker relies
    on: [fetch], [Date.now()], [ToString] of a value that is not a string,
    and the message of an engine-raised [TypeError]. *)
Variable fetch : request -> fetch_result.
Variable now : Z.
Variable ToString_other : value -> jsstring.
Variable type_error_message : jsstring.

Definition ToString (v : value) : jsstring :=
  match v with
  | VString s => s
  | _ => ToString_other v
  end.

Definition message_of (e : exn) : jsstring :=
  match e with
  | Err m => m
  | TypeErr => type_error_message
  end.

Definition decimal (n : N) : jsstring :=
  lit (NilEmpty.string_of_uint (N.to_uint n)).

Definition send (req : request) : io fetch_result :=
  fun w => (Normal (fetch req), World (local_storage w) (req :: sent w)).

Definition callOpenAI (prompt : jsstring) (apiKey : value) : io jsstring :=
  let API_ENDPOINT := lit "https://api.openai.com/v1/chat/completions" in
  io_try
    (outcome <~ send
       (Request API_ENDPOINT (lit "POST") (lit "application/json")
          (lit "Bearer " ++ ToString apiKey)
          (lit "gpt-3.5-turbo")
          (lit "You are a helpful assistant that creates concise summaries of text.")
          prompt 150%Z (7 # 10)%Q) ;;
     match outcome with
     | Rejected e => io_throw e
     | Resolved response =>
       if negb (ok response) then
         let errorData :=
           match json response with
           | Normal d => d
           | Throw _ => VObject []
           end in
         if (status response =? 401)%N then
           io_throw (Err (lit "Invalid API key. Please check your OpenAI API key."))
         else if (status response =? 429)%N then
           io_throw (Err (lit "Rate limit exceeded. Please try again later."))
         else if (status response =? 500)%N then
           io_throw (Err (lit "OpenAI service error. Please try again later."))
         else
           io_lift
             (err <- get errorData (lit "error") ;;
              message <- get_optional err (lit "message") ;;
              Throw (Err (if truthy message then ToString message
                          else lit "API error: " ++ decimal (status response))))
       else
         io_lift (data <- json response ;; parseApiResponse data)
     end)
    (fun error =>
       if includes (lit "Failed to fetch") (message_of error) then
         io_throw (Err (lit "Network error. Please check your internet connection."))
       else io_throw error).

Definition handleSummarization (text apiKey : value) : io jsstring :=
  invalid <~ io_lift
    (if negb (truthy apiKey) then Normal true
     else
       b <- call_startsWith apiKey (lit "sk-") ;;
       Normal (negb b)) ;;
  if invalid : bool then io_throw (Err (lit "Invalid API key"))
  else
    let validation := validateText text in
    if negb (valid validation) then
      io_throw (Err (match error validation with
                     | Some m => m
                     | None => lit "null"
                     end))
    else
      sanitizedText <~ io_lift (sanitizeText text) ;;
      let prompt := createSummaryPrompt sanitizedText in
      io_try
        (summary <~ callOpenAI prompt apiKey ;;
         fun w =>
           (Normal summary,
            storage_set
              [(lit "last_summary", VString summary);
               (lit "last_summary_time", VNumber (Num (inject_Z now)))] w))
        (fun error => io_throw error).

End Worker.

(** What the message listener sends back: [{ success: true, summary }] or
    [{ success: false, error }]. *)
Inductive reply :=
| Success (summary : jsstring)
| Failure (error : jsstring).

Section Listener.

Variable fetch : request -> fetch_result.
Variable now : Z.
Variable ToString_other : value -> jsstring.
Variable type_error_message : jsstring.

(** The error object that was thrown, as the handler of the listener sees
    it: every thrown error is an instance of [Error]. *)
Definition thrown_value (e : exn) : value :=
  VError (message_of type_error_message e).

(** The listener of [chrome.runtime.onMessage]: a request whose action is
    not ['summarizeText'] gets no answer. *)
Definition onMessage (action : jsstring) (text apiKey : value)
  : world -> option reply * world :=
  fun w =>
    if string_eqb action (lit "summarizeText") then
      match handleSummarization fetch now ToString_other type_error_message
              text apiKey w with
      | (Normal summary, w') => (Some (Success summary), w')
      | (Throw error, w') =>
        (Some (Failure (formatErrorMessage (thrown_value error))), w')
      end
    else (None, w).

End Listener.

End Background.

(* ================================================================== *)
(** ** The browser of the popup *)

(** The [style.display] of an element: not set by the script yet, or one
    of the values the popup assigns. *)
Inductive display := unset | none | block | flex.

(** The elements of the popup the script touches: the [display] of the two
    sections and of the four panels, the three texts and the value of the
    credential input. *)
Record ui := UI {
  apiKeySection : display;
  summarySection : display;
  loadingState : display;
  summaryContent : display;
  errorState : display;
  instructionState : display;
  statusText : jsstring;
  summaryText : jsstring;
  errorText : jsstring;
  apiKeyInput : jsstring
}.

(** [chrome.storage.sync], the page of the popup, and the world of the
    service worker ([chrome.storage.local] and the network). *)
Record browser := Browser {
  sync_storage : list (jsstring * value);
  page : ui;
  extension : world
}.

(** A call of the storage API; the browser may fail it and then sets
    [chrome.runtime.lastError]. *)
Inductive storage_op :=
| OpSet (key : jsstring)
| OpGet (key : jsstring)
| OpRemove (key : jsstring).

(** In the popup any value can be thrown: a rejected promise carries
    [chrome.runtime.lastError], which is no [Error]. *)
Inductive outcome (A : Type) :=
| Done (a : A)
| Raised (v : value).
Arguments Done {A} a.
Arguments Raised {A} v.

Definition task (A : Type) := browser -> outcome A * browser.

Definition task_ret {A} (a : A) : task A := fun b => (Done a, b).
Definition task_throw {A} (v : value) : task A := fun b => (Raised v, b).
Definition task_bind {A B} (m : task A) (k : A -> task B) : task B :=
  fun b =>
    match m b with
    | (Done a, b') => k a b'
    | (Raised v, b') => (Raised v, b')
    end.
Definition task_try {A} (m : task A) (handler : value -> task A) : task A :=
  fun b =>
    match m b with
    | (Done a, b') => (Done a, b')
    | (Raised v, b') => handler v b'
    end.

(** A change of the page. *)
Definition on_page (f : ui -> ui) : task unit :=
  fun b => (Done tt, Browser (sync_storage b) (f (page b)) (extension b)).

Notation "x <<- m ;; k" := (task_bind m (fun x => k))
  (at level 61, m at next level, right associativity).
Notation "m ;;; k" := (task_bind m (fun _ => k))
  (at level 61, right associativity).

(** [String.prototype.substring(0, end)] for an integer [end]: the bounds
    are clamped to the string. *)
Definition substring0 (s : jsstring) (end_ : Z) : jsstring :=
  firstn (Z.to_nat end_) s.

Definition QUOTE : code_unit := 34%N.

(* ================================================================== *)
(** ** utils.js *)

Module Utils.

Definition NO_TEXT_SELECTED := lit "Please highlight some text on the webpage first.".
Definition API_ERROR :=
  lit "Failed to generate summary. Please check your API key and try again.".
Definition INVALID_RESPONSE := lit "Received invalid response from API.".
Definition TEXT_TOO_SHORT :=
  lit "Selected text is too short. Please select at least 10 characters.".
Definition TEXT_TOO_LONG :=
  lit "Selected text is too long. Please select less than 10,000 characters.".

Definition validateText (text : value) : validation :=
  match text with
  | VString s =>
    if negb (truthy text) then Validation false (Some NO_TEXT_SELECTED)
    else
      let trimmedText := trim s in
      if (str_length trimmedText <? 10)%Z then Validation false (Some TEXT_TOO_SHORT)
      else if (10000 <? str_length trimmedText)%Z then Validation false (Some TEXT_TOO_LONG)
      else Validation true None
  | _ => (* [!text || typeof text !== 'string'] *)
    Validation false (Some NO_TEXT_SELECTED)
  end.

Definition validateApiKey (apiKey : value) : bool :=
  match apiKey with
  | VString s =>
    if negb (truthy apiKey) then false
    else startsWith (lit "sk-") s && (20 <? str_length s)%Z
  | _ => (* [!apiKey || typeof apiKey !== 'string'] *) false
  end.

Definition sanitizeText (text : value) : completion jsstring :=
  if negb (truthy text) then Normal []
  else
    trimmed <- call_trim text ;;
    Normal (replace newline_run3 [LF; LF] (replace whitespace_run [SPACE] trimmed)).

Definition formatErrorMessage (error : value) : jsstring :=
  match error with
  | VString s => s
  | VError message =>
    if includes (lit "401") message then
      lit "Invalid API key. Please check your OpenAI API key."
    else if includes (lit "429") message then
      lit "Rate limit exceeded. Please try again later."
    else if includes (lit "500") message then
      lit "OpenAI service error. Please try again later."
    else if truthy (VString message) then message
    else API_ERROR
  | _ => API_ERROR
  end.

Definition parseApiResponse (response : value) : completion jsstring :=
  try_catch
    (rejected <-
       (if negb (truthy response) then Normal true
        else
          choices <- get response (lit "choices") ;;
          if negb (truthy choices) then Normal true
          else
            len <- get choices (lit "length") ;;
            Normal (strict_equal_zero len)) ;;
     if rejected : bool then Throw (Err INVALID_RESPONSE)
     else
       choices <- get response (lit "choices") ;;
       first <- get_index choices 0 ;;
       message <- get first (lit "message") ;;
       summary <- get_optional message (lit "content") ;;
       if negb (truthy summary) then Throw (Err INVALID_RESPONSE)
       else call_trim summary)
    (fun _ => Throw (Err INVALID_RESPONSE)).

Definition API_KEY := lit "openai_api_key".

Definition createSummaryPrompt (text : jsstring) : jsstring :=
  lit "Please provide a concise summary of the following text in 2-3 sentences:"
  ++ [LF; LF] ++ text.

(** [truncateText(text, maxLength = 100)] on a string and an integer
    bound. *)
Definition truncateText (text : jsstring) (maxLength : option Z) : jsstring :=
  let maxLength := match maxLength with Some m => m | None => 100%Z end in
  if negb (truthy (VString text)) || (str_length text <=? maxLength)%Z then text
  else substring0 text maxLength ++ lit "...".

Section Storage.

(** Which calls of the storage API the browser fails, and with what
    [chrome.runtime.lastError]; a failed call leaves the store as it was. *)
Variable lastError : storage_op -> option value.

Definition saveToStorage (key : jsstring) (v : value) : task unit :=
  fun b =>
    match lastError (OpSet key) with
    | Some e => (Raised e, b)
    | None =>
      (Done tt,
       Browser (set_field key v (sync_storage b)) (page b) (extension b))
    end.

Definition getFromStorage (key : jsstring) : task value :=
  fun b =>
    match lastError (OpGet key) with
    | Some e => (Raised e, b)
    | None =>
      (Done (match get_field key (sync_storage b) with
             | Some v => v
             | None => VUndefined
             end), b)
    end.

Definition removeFromStorage (key : jsstring) : task unit :=
  fun b =>
    match lastError (OpRemove key) with
    | Some e => (Raised e, b)
    | None =>
      (Done tt,
       Browser (remove_field key (sync_storage b)) (page b) (extension b))
    end.

End Storage.

End Utils.

(* ================================================================== *)
(** ** content.js *)

Module Content.

(** The script keeps the last captured selection in [selectedText] and
    writes it to [chrome.storage.local]. *)
Record script := Script {
  selectedText : jsstring;
  store : world
}.

Definition truncateText (text : jsstring) (maxLength : Z) : jsstring :=
  if negb (truthy (VString text)) || (str_length text <=? maxLength)%Z then text
  else substring0 text maxLength ++ lit "...".

(** [captureTextSelection], given [window.getSelection().toString()]. *)
Definition captureTextSelection (selection : jsstring) (st : script) : script :=
  let text := trim selection in
  if truthy (VString text) then
    Script text (storage_set [(lit "selected_text", VString text)] (store st))
  else st.

(** The listener of the page script: the answer to ['getSelectedText'],
    [{ success: true, text: text || selectedText }]; other actions get no
    answer. *)
Definition onMessage (action : jsstring) (selection : jsstring) (st : script)
  : option jsstring :=
  if string_eqb action (lit "getSelectedText") then
    let text := trim selection in
    Some (if truthy (VString text) then text else selectedText st)
  else None.

End Content.

(* ================================================================== *)
(** ** popup.js *)

Module Popup.

Definition showApiKeySection (u : ui) : ui :=
  UI block none (loadingState u) (summaryContent u) (errorState u)
     (instructionState u) (statusText u) (summaryText u) (errorText u)
     (apiKeyInput u).

Definition showSummarySection (u : ui) : ui :=
  UI none block (loadingState u) (summaryContent u) (errorState u)
     (instructionState u) (statusText u) (summaryText u) (errorText u)
     (apiKeyInput u).

Definition showLoading (u : ui) : ui :=
  UI (apiKeySection u) (summarySection u) flex none none none
     (lit "Generating...") (summaryText u) (errorText u) (apiKeyInput u).

Definition showSummary (summary : jsstring) (u : ui) : ui :=
  UI (apiKeySection u) (summarySection u) none block none none
     (lit "Summary generated") summary (errorText u) (apiKeyInput u).

Definition showError (message : jsstring) (u : ui) : ui :=
  UI (apiKeySection u) (summarySection u) none none block none
     (lit "Error") (summaryText u) message (apiKeyInput u).

Definition showInstruction (u : ui) : ui :=
  UI (apiKeySection u) (summarySection u) none none none block
     (lit "Ready") (summaryText u) (errorText u) (apiKeyInput u).

Definition clearInput (u : ui) : ui :=
  UI (apiKeySection u) (summarySection u) (loadingState u) (summaryContent u)
     (errorState u) (instructionState u) (statusText u) (summaryText u)
     (errorText u) [].

Section Page.

Variable fetch : request -> fetch_result.
Variable now : Z.
Variable ToString_other : value -> jsstring.
Variable type_error_message : jsstring.
Variable lastError : storage_op -> option value.

(** When the message cannot be delivered the browser sets
    [chrome.runtime.lastError]; this is its message. *)
Variable port_error : option jsstring.

(** A pure step of the script that may raise a [TypeError]. *)
Definition lift {A} (c : completion A) : task A :=
  fun b =>
    match c with
    | Normal a => (Done a, b)
    | Throw e => (Raised (Background.thrown_value type_error_message e), b)
    end.

(** [chrome.runtime.sendMessage(request, callback)]: the service worker
    answers and the callback shows the answer. *)
Definition sendMessage (text apiKey : value) : task unit :=
  fun b =>
    match port_error with
    | Some m =>
      on_page (showError (lit "Extension error: " ++ m)) b
    | None =>
      match Background.onMessage fetch now ToString_other type_error_message
              (lit "summarizeText") text apiKey (extension b) with
      | (Some (Background.Success summary), w') =>
        (Done tt, Browser (sync_storage b) (showSummary summary (page b)) w')
      | (Some (Background.Failure err), w') =>
        (Done tt,
         Browser (sync_storage b)
           (showError (if truthy (VString err) then err
                       else lit "Failed to generate summary") (page b)) w')
      | (None, w') => (Done tt, Browser (sync_storage b) (page b) w')
      end
    end.

Definition attemptSummarization (apiKey : value) : task unit :=
  task_try
    (on_page showLoading ;;;
     selectedText <<- Utils.getFromStorage lastError (lit "selected_text") ;;
     blank <<- lift
       (if negb (truthy selectedText) then Normal true
        else
          trimmed <- call_trim selectedText ;;
          Normal (str_length trimmed =? 0)%Z) ;;
     if blank : bool then on_page showInstruction
     else
       let validation := Utils.validateText selectedText in
       if negb (valid validation) then
         on_page (showError (match error validation with
                             | Some m => m
                             | None => lit "null"
                             end))
       else sendMessage selectedText apiKey)
    (fun error => on_page (showError (Utils.formatErrorMessage error))).

Definition checkApiKey : task unit :=
  task_try
    (apiKey <<- Utils.getFromStorage lastError Utils.API_KEY ;;
     if truthy apiKey && Utils.validateApiKey apiKey then
       on_page showSummarySection ;;;
       attemptSummarization apiKey
     else on_page showApiKeySection)
    (fun _ => on_page showApiKeySection).

Definition handleSaveApiKey : task unit :=
  fun b =>
    let apiKey := trim (apiKeyInput (page b)) in
    if negb (Utils.validateApiKey (VString apiKey)) then
      on_page
        (showError
           (lit "Please enter a valid OpenAI API key (starts with "
            ++ [QUOTE] ++ lit "sk-" ++ [QUOTE] ++ lit ")")) b
    else
      task_try
        (Utils.saveToStorage lastError Utils.API_KEY (VString apiKey) ;;;
         on_page clearInput ;;;
         on_page showSummarySection ;;;
         attemptSummarization (VString apiKey))
        (fun _ =>
           on_page (showError (lit "Failed to save API key. Please try again.")))
        b.

Definition handleClearApiKey : task unit :=
  task_try
    (Utils.removeFromStorage lastError Utils.API_KEY ;;;
     on_page showApiKeySection)
    (fun _ =>
       on_page (showError (lit "Failed to clear API key. Please try again."))).

End Page.

End Popup.

(* ================================================================== *)
(** * Definitions of the specification *)

(** ** Scanning and maximal runs *)

(** The scan of a run of [p] stops in front of [s]. *)
Definition stops (p : code_unit -> bool) (s : jsstring) : Prop :=
  match s with
  | [] => True
  | c :: _ => p c = false
  end.

(** Neither end of the string is white space. *)
Definition trimmed (x : jsstring) : Prop :=
  stops is_whitespace x /\ stops is_whitespace (rev x).

(** The description of the sanitiser speaks of runs of white space and of
    runs of newlines.  [runs K_eqb cl s] cuts [s] into its maximal runs of
    code units of one class, each tagged with its class; the scanning loop is
    compared with it. *)
Section RunsDef.

Variable K : Type.
Variable K_eqb : K -> K -> bool.
Variable cl : code_unit -> K.

Definition run := (K * jsstring)%type.

Fixpoint runs (s : jsstring) : list run :=
  match s with
  | [] => []
  | c :: s' =>
    match runs s' with
    | (k, r) :: rest =>
      if K_eqb (cl c) k then (k, c :: r) :: rest
      else (cl c, [c]) :: (k, r) :: rest
    | [] => [(cl c, [c])]
    end
  end.

Definition flat (R : list run) : jsstring := concat (map snd R).

(** A run is not empty and all its code units have its class. *)
Definition typed (kr : run) : Prop :=
  snd kr <> [] /\ Forall (fun c => cl c = fst kr) (snd kr).

Definition differs (k : K) (R : list run) : Prop :=
  match R with
  | [] => True
  | kr :: _ => k <> fst kr
  end.

(** Neighbouring runs have different classes: the runs are maximal. *)
Fixpoint alternating (R : list run) : Prop :=
  match R with
  | [] => True
  | kr :: R' => differs (fst kr) R' /\ alternating R'
  end.

Definition wf_runs (R : list run) : Prop := Forall typed R /\ alternating R.

(** One replacement pass seen on a run: a run of class [k0] that reaches the
    lower bound of [re] becomes [by_]. *)
Definition collapse (re : pattern) (by_ : jsstring) (k0 : K) (kr : run) : run :=
  if K_eqb (fst kr) k0 && (at_least re <=? length (snd kr))
  then (fst kr, by_) else kr.

Definition head_ok (ws_class : K -> bool) (R : list run) : Prop :=
  match R with
  | [] => True
  | kr :: _ => ws_class (fst kr) = false
  end.

Definition ends_ok (ws_class : K -> bool) (R : list run) : Prop :=
  head_ok ws_class R /\ head_ok ws_class (rev R).

Definition rev_run (kr : run) : run := (fst kr, rev (snd kr)).

End RunsDef.

(** ** The sanitiser, as the specification words it *)

(** The three kinds of code unit the description distinguishes: white space
    that is not a line feed, the line feed, anything else. *)
Inductive char_class := Blank | Newline | Other.

Definition char_class_eqb (a b : char_class) : bool :=
  match a, b with
  | Blank, Blank | Newline, Newline | Other, Other => true
  | _, _ => false
  end.

Definition classify (c : code_unit) : char_class :=
  if is_newline c then Newline
  else if is_whitespace c then Blank
  else Other.

Definition is_ws_class (k : char_class) : bool :=
  match k with
  | Other => false
  | _ => true
  end.

(** What becomes of one maximal run: white space collapses to one space,
    three newlines or more collapse to two, the rest is kept. *)
Definition collapse_run (kr : char_class * jsstring) : jsstring :=
  match fst kr with
  | Blank => [SPACE]
  | Newline => if 3 <=? length (snd kr) then [LF; LF] else snd kr
  | Other => snd kr
  end.

(** Trim, then treat every maximal run of the trimmed input. *)
Definition sanitize_spec (s : jsstring) : jsstring :=
  concat (map collapse_run (runs char_class_eqb classify (trim s))).

(** The two passes of the background worker and the first pass of the shared
    utilities, on runs. *)
Definition pass_blank := collapse char_class_eqb blank_run [SPACE] Blank.
Definition pass_newline := collapse char_class_eqb newline_run3 [LF; LF] Newline.
Definition pass_whitespace := collapse Bool.eqb whitespace_run [SPACE] true.

(** ** Prefixes and substrings *)

Definition has_prefix (prefix s : jsstring) : Prop :=
  exists rest, s = prefix ++ rest.

Definition contains (needle s : jsstring) : Prop :=
  exists before after, s = before ++ needle ++ after.

(** ** The content of a response *)

(** [choices[0]] as the description reads it: the first element of a
    non-empty array.  An object is read the same way through its own fields,
    [length] telling whether it is empty and ["0"] holding the element. *)
Definition first_choice (choices : value) : option value :=
  match choices with
  | VArray elements => hd_error elements
  | VObject fields =>
    match get_field (lit "length") fields with
    | Some len =>
      if strict_equal_zero len then None else get_field (lit "0") fields
    | None => get_field (lit "0") fields
    end
  | _ => None
  end.

(** The non-empty string at [message.content] of a choice. *)
Definition content_of_choice (choice : value) : option jsstring :=
  match choice with
  | VObject fields =>
    match get_field (lit "message") fields with
    | Some (VObject message) =>
      match get_field (lit "content") message with
      | Some (VString (c :: s)) => Some (c :: s)
      | _ => None
      end
    | _ => None
    end
  | _ => None
  end.

(** The non-empty string at [choices[0].message.content], when the response
    has one. *)
Definition summary_content (response : value) : option jsstring :=
  match response with
  | VObject fields =>
    match get_field (lit "choices") fields with
    | Some choices =>
      match first_choice choices with
      | Some choice => content_of_choice choice
      | None => None
      end
    | None => None
    end
  | _ => None
  end.

(** ** The orchestrator *)

(** The orchestrator's own test of the credential, [!apiKey ||
    !apiKey.startsWith('sk-')], on the values a credential can be: a falsy
    value or a string. *)
Definition credential_refused (apiKey : value) : Prop :=
  truthy apiKey = false \/
  exists k, apiKey = VString k /\ ~ has_prefix (lit "sk-") k.

(** The one request of a summarisation. *)
Definition summary_request (credential prompt : jsstring) : request :=
  Request (lit "https://api.openai.com/v1/chat/completions")
    (lit "POST") (lit "application/json")
    (lit "Bearer " ++ credential)
    (lit "gpt-3.5-turbo")
    (lit "You are a helpful assistant that creates concise summaries of text.")
    prompt 150%Z (7 # 10)%Q.

Definition last_summary_items (summary : jsstring) (now : Z)
  : list (jsstring * value) :=
  [(lit "last_summary", VString summary);
   (lit "last_summary_time", VNumber (Num (inject_Z now)))].

(** ** The scenarios of the specification *)

Module Scenario.

Definition credential : jsstring := lit "sk-1234567890abcdefghijklmnop".

Definition selection : jsstring :=
  lit "This is a valid text that is long enough to be processed.".

(** A success body whose first choice carries [content]. *)
Definition success_body (content : jsstring) : value :=
  VObject [(lit "choices",
            VArray [VObject [(lit "message",
                              VObject [(lit "content", VString content)])]])].

(** A transport that answers every request with that body. *)
Definition answering (content : jsstring) : request -> fetch_result :=
  fun _ => Resolved (Response true 200 (Normal (success_body content))).

Definition clock : Z := 1700000000000.

Definition engine_ToString (v : value) : jsstring := lit "[object Object]".

Definition engine_type_error : jsstring :=
  lit "Cannot read properties of undefined".

Definition fresh : world := World [] [].

(** The orchestrator in that setting. *)
Definition summarize (content : jsstring) (text apiKey : value)
  : completion jsstring * world :=
  Background.handleSummarization (answering content) clock engine_ToString
    engine_type_error text apiKey fresh.

Definition four_newlines : jsstring :=
  lit "Line 1" ++ [LF; LF; LF; LF] ++ lit "Line 2".

End Scenario.

(** ** The views of the popup *)

Inductive panel := LoadingPanel | SummaryPanel | ErrorPanel | InstructionPanel.

(** Exactly the panel [p] is displayed, the three others are hidden. *)
Definition only_panel (p : panel) (u : ui) : Prop :=
  loadingState u = match p with LoadingPanel => flex | _ => none end /\
  summaryContent u = match p with SummaryPanel => block | _ => none end /\
  errorState u = match p with ErrorPanel => block | _ => none end /\
  instructionState u = match p with InstructionPanel => block | _ => none end.

(** The error panel is the one displayed and carries [message]. *)
Definition shows_error (message : jsstring) (u : ui) : Prop :=
  only_panel ErrorPanel u /\ errorText u = message.

(** ** The selections of the page script *)

(** The script after a series of selections, oldest first. *)
Definition capture_all (selections : list jsstring) (st : Content.script)
  : Content.script :=
  fold_left (fun st selection => Content.captureTextSelection selection st)
    selections st.

(** The last selection of the series that is not blank, trimmed. *)
Fixpoint last_nonblank (selections : list jsstring) : option jsstring :=
  match selections with
  | [] => None
  | selection :: rest =>
    match last_nonblank rest with
    | Some t => Some t
    | None =>
      match trim selection with
      | [] => None
      | c :: t => Some (c :: t)
      end
    end
  end.

(** ** A session of the extension *)

(** What the user does: select text on the page, open the popup (which
    loads its page and checks the credential), save the credential typed in
    the input, clear the credential. *)
Inductive user_action :=
| Select (selection : jsstring)
| OpenPopup (loaded : ui)
| SaveKey (typed : jsstring)
| ClearKey.

(** The variable of the page script and the browser.  The page script and
    the service worker share [chrome.storage.local]. *)
Record session := Session {
  captured : jsstring;
  browser_of : browser
}.

Definition type_in (typed : jsstring) (u : ui) : ui :=
  UI (apiKeySection u) (summarySection u) (loadingState u) (summaryContent u)
     (errorState u) (instructionState u) (statusText u) (summaryText u)
     (errorText u) typed.

Section Sessions.

Variable fetch : request -> fetch_result.
Variable now : Z.
Variable ToString_other : value -> jsstring.
Variable type_error_message : jsstring.
Variable lastError : storage_op -> option value.
Variable port_error : option jsstring.

Definition step (s : session) (a : user_action) : session :=
  let b := browser_of s in
  match a with
  | Select selection =>
    let st := Content.captureTextSelection selection
                (Content.Script (captured s) (extension b)) in
    Session (Content.selectedText st)
      (Browser (sync_storage b) (page b) (Content.store st))
  | OpenPopup loaded =>
    Session (captured s)
      (snd (Popup.checkApiKey fetch now ToString_other type_error_message
              lastError port_error
              (Browser (sync_storage b) loaded (extension b))))
  | SaveKey typed =>
    Session (captured s)
      (snd (Popup.handleSaveApiKey fetch now ToString_other type_error_message
              lastError port_error
              (Browser (sync_storage b) (type_in typed (page b)) (extension b))))
  | ClearKey =>
    Session (captured s)
      (snd (Popup.handleClearApiKey lastError b))
  end.

Definition run_session (actions : list user_action) (s : session) : session :=
  fold_left step actions s.

End Sessions.

(** What [getFromStorage('selected_text')] finds. *)
Definition stored_selection (b : browser) : value :=
  match get_field (lit "selected_text") (sync_storage b) with
  | Some v => v
  | None => VUndefined
  end.

(** The page after the loading view was replaced by [f]. *)
Definition after_loading (f : ui -> ui) (b : browser) : outcome unit * browser :=
  (Done tt,
   Browser (sync_storage b) (f (Popup.showLoading (page b))) (extension b)).

(** ** More scenarios *)

Module Cases.

(** A transport that refuses every request with the given status and a body
    that is no JSON. *)
Definition refusing (code : N) : request -> fetch_result :=
  fun _ =>
    Resolved (Response false code (Throw (Err (lit "Unexpected end of JSON input")))).

(** A transport without network. *)
Definition offline : request -> fetch_result :=
  fun _ => Rejected (Err (lit "Failed to fetch")).

(** A browser that fails no storage call, and one that fails every write. *)
Definition reliable : storage_op -> option value := fun _ => None.

Definition quota : value :=
  VObject [(lit "message", VString (lit "QUOTA_BYTES quota exceeded"))].

Definition failing_writes : storage_op -> option value :=
  fun op =>
    match op with
    | OpGet _ => None
    | _ => Some quota
    end.

(** The page of the popup before its script has touched it. *)
Definition loaded : ui := UI unset unset unset unset unset unset [] [] [] [].

Definition browser_with (sync : list (jsstring * value)) (typed : jsstring)
  : browser :=
  Browser sync (type_in typed loaded) Scenario.fresh.

End Cases.

(* ================================================================== *)
(** * Properties *)

(** ** Scanning *)

Section Scanning.

Variable p : code_unit -> bool.

Lemma take_drop s : take_while p s ++ drop_while p s = s.
Proof.
  induction s as [|c s IH]; simpl; [reflexivity|].
  destruct (p c); simpl; [now rewrite IH | reflexivity].
Qed.

Lemma drop_while_length s : length (drop_while p s) <= length s.
Proof.
  induction s as [|c s IH]; simpl; [lia|].
  destruct (p c); simpl; lia.
Qed.

Lemma drop_while_stops s : stops p (drop_while p s).
Proof.
  induction s as [|c s IH]; simpl; [exact I|].
  destruct (p c) eqn:E; simpl; assumption.
Qed.

Lemma drop_while_fix s : stops p s -> drop_while p s = s.
Proof.
  destruct s as [|c s]; simpl; [reflexivity|].
  now intros ->.
Qed.

Lemma span_run r s :
  Forall (fun c => p c = true) r -> stops p s ->
  take_while p (r ++ s) = r /\ drop_while p (r ++ s) = s.
Proof.
  intros Hr Hs. induction Hr as [|c r Hc _ IH]; simpl.
  - destruct s as [|d s]; simpl in *; [auto|]. now rewrite Hs.
  - rewrite Hc. destruct IH as [-> ->]. auto.
Qed.

End Scanning.

(** ** The replacement loop *)

Section Replace.

Variable re : pattern.
Variable by_ : jsstring.

Lemma exec_Some c s m rest :
  exec re (c :: s) = Some (m, rest) ->
  class re c = true /\ rest = drop_while (class re) s.
Proof.
  unfold exec. simpl. destruct (class re c); simpl.
  - destruct (at_least re <=? S (length (take_while (class re) s)));
      [|discriminate].
    intros H. inversion H. auto.
  - discriminate.
Qed.

Lemma replace_from_stable n : forall m s,
  length s <= n -> length s <= m ->
  replace_from n re by_ s = replace_from m re by_ s.
Proof.
  induction n as [|n IH]; intros m s Hn Hm.
  - destruct s; [|simpl in Hn; lia]. destruct m; reflexivity.
  - destruct m as [|m].
    + destruct s; [reflexivity | simpl in Hm; lia].
    + destruct s as [|c s]; [reflexivity|]. simpl in Hn, Hm.
      cbn [replace_from].
      destruct (exec re (c :: s)) as [[mt rest]|] eqn:E.
      * apply exec_Some in E. destruct E as [_ ->].
        pose proof (drop_while_length (class re) s).
        f_equal. apply IH; lia.
      * f_equal. apply IH; lia.
Qed.

(** The loop never runs out of fuel: any amount of fuel from the length of
    the subject on gives the result of [replace]. *)
Lemma replace_from_fuel n s :
  length s <= n -> replace_from n re by_ s = replace re by_ s.
Proof.
  intros H. unfold replace. apply replace_from_stable; lia.
Qed.

Lemma replace_cons c s :
  replace re by_ (c :: s) =
  match exec re (c :: s) with
  | Some (_, rest) => by_ ++ replace re by_ rest
  | None => c :: replace re by_ s
  end.
Proof.
  unfold replace at 1. cbn [length replace_from].
  destruct (exec re (c :: s)) as [[mt rest]|] eqn:E.
  - apply exec_Some in E. destruct E as [_ ->].
    pose proof (drop_while_length (class re) s).
    now rewrite replace_from_fuel.
  - now rewrite replace_from_fuel.
Qed.

Lemma replace_skip c s :
  class re c = false -> replace re by_ (c :: s) = c :: replace re by_ s.
Proof.
  intros H. rewrite replace_cons. unfold exec. simpl. now rewrite H.
Qed.

Lemma replace_skip_all r s :
  Forall (fun c => class re c = false) r ->
  replace re by_ (r ++ s) = r ++ replace re by_ s.
Proof.
  induction 1 as [|c r Hc _ IH]; simpl; [reflexivity|].
  now rewrite replace_skip, IH.
Qed.

(** A whole run that reaches the lower bound is replaced. *)
Lemma replace_run_match r s :
  r <> [] -> Forall (fun c => class re c = true) r -> stops (class re) s ->
  at_least re <= length r ->
  replace re by_ (r ++ s) = by_ ++ replace re by_ s.
Proof.
  intros Hne Hr Hs Hlen.
  destruct r as [|c r]; [congruence|].
  change ((c :: r) ++ s) with (c :: (r ++ s)).
  rewrite replace_cons.
  change (c :: (r ++ s)) with ((c :: r) ++ s).
  unfold exec. destruct (@span_run (class re) _ _ Hr Hs) as [-> ->].
  apply Nat.leb_le in Hlen. rewrite Hlen. reflexivity.
Qed.

(** A run shorter than the lower bound is copied. *)
Lemma replace_run_short r s :
  Forall (fun c => class re c = true) r -> stops (class re) s ->
  length r < at_least re ->
  replace re by_ (r ++ s) = r ++ replace re by_ s.
Proof.
  intros Hr Hs. induction Hr as [|c r Hc Hr IH]; intros Hlen; [reflexivity|].
  change ((c :: r) ++ s) with (c :: (r ++ s)).
  rewrite replace_cons.
  change (c :: (r ++ s)) with ((c :: r) ++ s).
  unfold exec.
  destruct (@span_run (class re) _ _ (Forall_cons c Hc Hr) Hs) as [-> _].
  apply Nat.leb_gt in Hlen. rewrite Hlen, andb_false_r.
  simpl. f_equal. apply IH. simpl in Hlen. apply Nat.leb_gt in Hlen.
  simpl in Hlen. lia.
Qed.

End Replace.

(** ** Maximal runs *)

Section Runs.

Variable K : Type.
Variable K_eqb : K -> K -> bool.
Hypothesis K_eqb_eq : forall a b, K_eqb a b = true <-> a = b.
Variable cl : code_unit -> K.

Lemma K_eqb_refl k : K_eqb k k = true.
Proof. now apply K_eqb_eq. Qed.

Lemma K_eqb_neq a b : a <> b -> K_eqb a b = false.
Proof.
  intros H. destruct (K_eqb a b) eqn:E; [|reflexivity].
  apply K_eqb_eq in E. contradiction.
Qed.

Lemma flat_cons (k : K) r R : flat ((k, r) :: R) = r ++ flat R.
Proof. reflexivity. Qed.

Lemma flat_runs s : flat (runs K_eqb cl s) = s.
Proof.
  induction s as [|c s IH]; [reflexivity|]. simpl.
  destruct (runs K_eqb cl s) as [|[k r] rest]; simpl in *.
  - now rewrite <- IH.
  - destruct (K_eqb (cl c) k); unfold flat in *; simpl in *; now rewrite IH.
Qed.

Lemma runs_wf s : wf_runs cl (runs K_eqb cl s).
Proof.
  induction s as [|c s [IHt IHa]]; [split; [constructor | exact I]|].
  simpl. destruct (runs K_eqb cl s) as [|[k r] rest].
  - split; [|simpl; auto].
    constructor; [|constructor]. split; simpl; [discriminate | auto].
  - destruct (K_eqb (cl c) k) eqn:E.
    + apply K_eqb_eq in E. inversion IHt as [|? ? [Hne Hall] Hrest]; subst.
      split.
      * constructor; [|assumption]. split; simpl; [discriminate | auto].
      * exact IHa.
    + split.
      * constructor; [|assumption]. split; simpl; [discriminate | auto].
      * split; [|assumption]. simpl. intros H.
        rewrite H, K_eqb_refl in E. discriminate.
Qed.

Lemma runs_run k r R :
  r <> [] -> Forall (fun c => cl c = k) r -> differs k R ->
  runs K_eqb cl (flat R) = R -> runs K_eqb cl (r ++ flat R) = (k, r) :: R.
Proof.
  intros Hne Hall Hd HR. induction Hall as [|c r Hc Hall IH]; [congruence|].
  destruct r as [|c2 r].
  - simpl. rewrite HR. destruct R as [|[k' r'] rest]; [now rewrite Hc|].
    simpl in Hd. rewrite Hc, (K_eqb_neq Hd). reflexivity.
  - change ((c :: c2 :: r) ++ flat R) with (c :: ((c2 :: r) ++ flat R)).
    cbn [runs]. rewrite IH by discriminate.
    now rewrite Hc, K_eqb_refl.
Qed.

(** Cutting the concatenation of maximal runs gives the runs back. *)
Lemma runs_flat R : wf_runs cl R -> runs K_eqb cl (flat R) = R.
Proof.
  intros [Ht Ha]. induction Ht as [|[k r] R [Hne Hall] Ht IH]; [reflexivity|].
  destruct Ha as [Hd Ha]. rewrite flat_cons.
  apply runs_run; auto.
Qed.

Lemma typed_hd k r : typed cl (k, r) -> exists c r', r = c :: r' /\ cl c = k.
Proof.
  intros [Hne Hall]. simpl in *. destruct r as [|c r']; [congruence|].
  inversion Hall; subst. eauto.
Qed.

Section Pass.

Variable re : pattern.
Variable by_ : jsstring.
Variable k0 : K.
Hypothesis class_k0 : forall c, class re c = K_eqb (cl c) k0.

Lemma fst_collapse kr : fst (collapse K_eqb re by_ k0 kr) = fst kr.
Proof.
  unfold collapse.
  now destruct (K_eqb (fst kr) k0 && (at_least re <=? length (snd kr))).
Qed.

Lemma stops_flat R :
  Forall (typed cl) R -> differs k0 R -> stops (class re) (flat R).
Proof.
  intros Ht Hd. destruct R as [|[k r] R]; [exact I|].
  inversion Ht as [|? ? Hkr _]; subst.
  destruct (typed_hd Hkr) as (c & r' & -> & Hc).
  simpl in *. rewrite class_k0, Hc. apply K_eqb_neq. congruence.
Qed.

(** One pass of the replacement loop over a string treats each of its
    maximal runs on its own. *)
Lemma replace_flat R :
  wf_runs cl R ->
  replace re by_ (flat R) = flat (map (collapse K_eqb re by_ k0) R).
Proof.
  intros [Ht Ha].
  induction Ht as [|[k r] R [Hne Hall] Ht IH]; [reflexivity|].
  destruct Ha as [Hd Ha]. simpl in Hne, Hall, Hd.
  cbn [map]. unfold collapse at 1. cbn [fst snd].
  rewrite flat_cons.
  destruct (K_eqb k k0) eqn:E.
  - apply K_eqb_eq in E. subst k.
    assert (Hin : Forall (fun c => class re c = true) r).
    { eapply Forall_impl; [|exact Hall]. simpl. intros c Hc.
      now rewrite class_k0, Hc, K_eqb_refl. }
    pose proof (stops_flat Ht Hd) as Hs.
    destruct (at_least re <=? length r) eqn:L; cbn [andb].
    + apply Nat.leb_le in L.
      rewrite replace_run_match by auto.
      now rewrite flat_cons, IH.
    + apply Nat.leb_gt in L.
      rewrite replace_run_short by auto.
      now rewrite flat_cons, IH.
  - cbn [andb].
    assert (Hout : Forall (fun c => class re c = false) r).
    { eapply Forall_impl; [|exact Hall]. simpl. intros c Hc.
      now rewrite class_k0, Hc. }
    rewrite replace_skip_all by exact Hout.
    now rewrite flat_cons, IH.
Qed.

Hypothesis by_ne : by_ <> [].
Hypothesis by_k0 : Forall (fun c => cl c = k0) by_.

Lemma collapse_typed kr :
  typed cl kr -> typed cl (collapse K_eqb re by_ k0 kr).
Proof.
  unfold collapse. intros H.
  destruct (K_eqb (fst kr) k0) eqn:E; cbn [andb]; [|exact H].
  destruct (at_least re <=? length (snd kr)); [|exact H].
  apply K_eqb_eq in E. split; simpl; [exact by_ne | now rewrite E].
Qed.

Lemma collapse_wf R :
  wf_runs cl R -> wf_runs cl (map (collapse K_eqb re by_ k0) R).
Proof.
  intros [Ht Ha]. split.
  - apply Forall_map. eapply Forall_impl; [|exact Ht].
    apply collapse_typed.
  - clear Ht. induction R as [|kr R IH]; [exact I|].
    destruct Ha as [Hd Ha]. split; [|auto].
    rewrite fst_collapse. destruct R as [|kr' R]; [exact I|].
    simpl. now rewrite fst_collapse.
Qed.

End Pass.

Variable ws_class : K -> bool.
Hypothesis ws_class_spec : forall c, is_whitespace c = ws_class (cl c).

Lemma head_ok_flat R :
  Forall (typed cl) R -> (stops is_whitespace (flat R) <-> head_ok ws_class R).
Proof.
  intros Ht. destruct R as [|[k r] R]; [simpl; tauto|].
  inversion Ht as [|? ? Hkr _]; subst.
  destruct (typed_hd Hkr) as (c & r' & -> & Hc).
  simpl. rewrite ws_class_spec, Hc. tauto.
Qed.

Lemma rev_flat (R : list (run K)) :
  rev (flat R) = flat (map (@rev_run K) (rev R)).
Proof.
  induction R as [|[k r] R IH]; [reflexivity|].
  rewrite flat_cons, rev_app_distr, IH. simpl.
  rewrite map_app. unfold flat. rewrite map_app, concat_app. simpl.
  now rewrite app_nil_r.
Qed.

Lemma rev_run_typed kr : typed cl kr -> typed cl (rev_run kr).
Proof.
  intros [Hne Hall]. split; simpl.
  - intros H. apply Hne. apply (f_equal (@rev _)) in H.
    now rewrite rev_involutive in H.
  - now apply Forall_rev.
Qed.

Lemma head_ok_map (f : run K -> run K) R :
  (forall kr, fst (f kr) = fst kr) ->
  head_ok ws_class (map f R) <-> head_ok ws_class R.
Proof.
  intros Hf. destruct R as [|kr R]; simpl; [tauto|]. now rewrite Hf.
Qed.

Lemma ends_ok_map (f : run K -> run K) R :
  (forall kr, fst (f kr) = fst kr) ->
  ends_ok ws_class R -> ends_ok ws_class (map f R).
Proof.
  intros Hf [H1 H2]. split.
  - now apply head_ok_map.
  - rewrite <- map_rev. now apply head_ok_map.
Qed.

End Runs.

(** ** Trimming *)

Lemma trimmed_trim x : trimmed x -> trim x = x.
Proof.
  intros [H1 H2]. unfold trim.
  rewrite (drop_while_fix _ _ H1), (drop_while_fix _ _ H2).
  apply rev_involutive.
Qed.

Lemma trim_trimmed s : trimmed (trim s).
Proof.
  unfold trim, trimmed.
  set (a := drop_while is_whitespace s).
  set (b := drop_while is_whitespace (rev a)).
  assert (Ha : stops is_whitespace a) by apply drop_while_stops.
  assert (Hb : stops is_whitespace b) by apply drop_while_stops.
  split; [|now rewrite rev_involutive].
  pose proof (take_drop is_whitespace (rev a)) as E. fold b in E.
  apply (f_equal (@rev _)) in E.
  rewrite rev_app_distr, rev_involutive in E.
  destruct (rev b) as [|c t]; [exact I|].
  rewrite <- E in Ha. exact Ha.
Qed.

Lemma trimmed_flat K (cl : code_unit -> K) (ws_class : K -> bool) R :
  (forall c, is_whitespace c = ws_class (cl c)) ->
  Forall (typed cl) R ->
  (trimmed (flat R) <-> ends_ok ws_class R).
Proof.
  intros Hws Ht. unfold trimmed, ends_ok.
  rewrite rev_flat.
  rewrite (head_ok_flat ws_class Hws Ht).
  assert (Ht' : Forall (typed cl) (map (@rev_run K) (rev R))).
  { apply Forall_map, Forall_rev. eapply Forall_impl; [|exact Ht].
    apply rev_run_typed. }
  rewrite (head_ok_flat ws_class Hws Ht').
  rewrite (head_ok_map ws_class (@rev_run K) (rev R)) by reflexivity.
  tauto.
Qed.

Lemma runs_trim_ends_ok K (K_eqb : K -> K -> bool) (cl : code_unit -> K)
  (ws_class : K -> bool) s :
  (forall a b, K_eqb a b = true <-> a = b) ->
  (forall c, is_whitespace c = ws_class (cl c)) ->
  ends_ok ws_class (runs K_eqb cl (trim s)).
Proof.
  intros Heq Hws.
  destruct (runs_wf K_eqb Heq cl (trim s)) as [Ht _].
  apply (trimmed_flat ws_class Hws Ht).
  rewrite flat_runs. apply trim_trimmed.
Qed.

Lemma newline_is_whitespace c : is_newline c = true -> is_whitespace c = true.
Proof.
  unfold is_newline. intros H. apply N.eqb_eq in H. now subst.
Qed.

(** ** The sanitiser of the background worker *)

Lemma char_class_eqb_eq a b : char_class_eqb a b = true <-> a = b.
Proof. destruct a, b; simpl; split; congruence. Qed.

Lemma classify_whitespace c : is_whitespace c = is_ws_class (classify c).
Proof.
  unfold classify. destruct (is_newline c) eqn:E.
  - now apply newline_is_whitespace.
  - now destruct (is_whitespace c).
Qed.

Lemma classify_blank c : class blank_run c = char_class_eqb (classify c) Blank.
Proof.
  simpl. unfold is_blank, classify.
  destruct (is_newline c); [now rewrite andb_false_r|].
  now destruct (is_whitespace c).
Qed.

Lemma classify_newline c :
  class newline_run3 c = char_class_eqb (classify c) Newline.
Proof.
  simpl. unfold classify.
  destruct (is_newline c); [reflexivity|]. now destruct (is_whitespace c).
Qed.

Lemma passes_wf R :
  wf_runs classify R -> wf_runs classify (map pass_newline (map pass_blank R)).
Proof.
  intros H.
  apply (collapse_wf char_class_eqb char_class_eqb_eq);
    [discriminate | repeat constructor |].
  apply (collapse_wf char_class_eqb char_class_eqb_eq);
    [discriminate | repeat constructor |].
  exact H.
Qed.

Lemma background_passes R :
  wf_runs classify R ->
  replace newline_run3 [LF; LF] (replace blank_run [SPACE] (flat R)) =
  flat (map pass_newline (map pass_blank R)).
Proof.
  intros H.
  rewrite (replace_flat char_class_eqb char_class_eqb_eq blank_run [SPACE] Blank
             classify_blank H).
  apply (replace_flat char_class_eqb char_class_eqb_eq newline_run3 [LF; LF]
           Newline classify_newline).
  apply (collapse_wf char_class_eqb char_class_eqb_eq);
    [discriminate | repeat constructor |].
  exact H.
Qed.

Lemma passes_collapse_run kr :
  typed classify kr -> snd (pass_newline (pass_blank kr)) = collapse_run kr.
Proof.
  destruct kr as [k r]. intros [Hne _]. simpl in Hne.
  destruct r as [|c r]; [congruence|].
  unfold pass_newline, pass_blank, collapse, collapse_run.
  destruct k; cbn [fst snd char_class_eqb andb at_least blank_run newline_run3];
    try reflexivity.
  destruct (3 <=? length (c :: r)); reflexivity.
Qed.

Lemma passes_idempotent kr :
  typed classify kr ->
  pass_newline (pass_blank (pass_newline (pass_blank kr))) =
  pass_newline (pass_blank kr).
Proof.
  destruct kr as [k r]. intros [Hne _]. simpl in Hne.
  destruct r as [|c r]; [congruence|].
  unfold pass_newline, pass_blank, collapse.
  destruct k; cbn [fst snd char_class_eqb andb at_least blank_run newline_run3];
    try reflexivity.
  destruct (3 <=? length (c :: r)) eqn:E;
    cbn [fst snd char_class_eqb andb]; [reflexivity | now rewrite E].
Qed.

Lemma passes_idempotent_all R :
  Forall (typed classify) R ->
  map pass_newline (map pass_blank (map pass_newline (map pass_blank R))) =
  map pass_newline (map pass_blank R).
Proof.
  induction 1 as [|kr R Hkr _ IH]; [reflexivity|].
  cbn [map]. now rewrite IH, passes_idempotent.
Qed.

Lemma background_sanitize_runs s :
  Background.sanitizeText (VString s) =
  Normal (flat (map pass_newline
                  (map pass_blank (runs char_class_eqb classify (trim s))))).
Proof.
  unfold Background.sanitizeText. destruct s as [|c s]; [reflexivity|].
  cbn [truthy length Nat.eqb negb call_trim cbind].
  f_equal.
  rewrite <- (flat_runs char_class_eqb classify (trim (c :: s))) at 1.
  apply background_passes, runs_wf. exact char_class_eqb_eq.
Qed.

(** The scanning loops of the worker compute the run-by-run description. *)
Lemma background_sanitize_spec s :
  Background.sanitizeText (VString s) = Normal (sanitize_spec s).
Proof.
  rewrite background_sanitize_runs. f_equal. unfold sanitize_spec, flat.
  pose proof (runs_wf char_class_eqb char_class_eqb_eq classify (trim s)) as [Ht _].
  induction Ht as [|kr R Hkr _ IH]; [reflexivity|].
  cbn [map concat]. now rewrite IH, passes_collapse_run.
Qed.

Lemma background_sanitize_fixed s y :
  Background.sanitizeText (VString s) = Normal y ->
  Background.sanitizeText (VString y) = Normal y.
Proof.
  rewrite background_sanitize_runs. intros H. inversion H as [Hy]. clear H.
  set (R0 := runs char_class_eqb classify (trim s)) in *.
  set (R2 := map pass_newline (map pass_blank R0)) in *.
  assert (Hwf0 : wf_runs classify R0)
    by apply (runs_wf char_class_eqb char_class_eqb_eq).
  assert (Hwf2 : wf_runs classify R2) by now apply passes_wf.
  assert (Hends : ends_ok is_ws_class R2).
  { unfold R2.
    apply ends_ok_map; [apply fst_collapse|].
    apply ends_ok_map; [apply fst_collapse|].
    apply (runs_trim_ends_ok char_class_eqb classify is_ws_class s
             char_class_eqb_eq classify_whitespace). }
  rewrite background_sanitize_runs. f_equal.
  rewrite (trimmed_trim (proj2 (trimmed_flat is_ws_class classify_whitespace
                                  (proj1 Hwf2)) Hends)).
  rewrite (runs_flat char_class_eqb char_class_eqb_eq Hwf2).
  unfold R2. now rewrite (passes_idempotent_all (proj1 Hwf0)).
Qed.

(** ** The sanitiser of the shared utilities *)

Lemma bool_eqb_eq (a b : bool) : Bool.eqb a b = true <-> a = b.
Proof. apply Bool.eqb_true_iff. Qed.

Lemma whitespace_class c :
  class whitespace_run c = Bool.eqb (is_whitespace c) true.
Proof. simpl. now destruct (is_whitespace c). Qed.

Lemma whitespace_id c : is_whitespace c = (fun b : bool => b) (is_whitespace c).
Proof. reflexivity. Qed.

Lemma pass_whitespace_wf R :
  wf_runs is_whitespace R -> wf_runs is_whitespace (map pass_whitespace R).
Proof.
  apply (collapse_wf Bool.eqb bool_eqb_eq); [discriminate | repeat constructor].
Qed.

Lemma pass_whitespace_idempotent R :
  Forall (typed is_whitespace) R ->
  map pass_whitespace (map pass_whitespace R) = map pass_whitespace R.
Proof.
  induction 1 as [|[k r] R [Hne _] _ IH]; [reflexivity|].
  cbn [map]. rewrite IH. f_equal. simpl in Hne.
  destruct r as [|c r]; [congruence|].
  unfold pass_whitespace, collapse.
  destruct k; reflexivity.
Qed.

(** After the first pass of the utilities no line feed is left, so their
    second pass finds nothing to replace. *)
Lemma no_newline_left R :
  Forall (typed is_whitespace) R ->
  Forall (fun c => class newline_run3 c = false) (flat (map pass_whitespace R)).
Proof.
  induction 1 as [|[k r] R [Hne Hall] _ IH]; [constructor|].
  cbn [map]. simpl in Hne, Hall.
  destruct r as [|c r]; [congruence|].
  destruct k.
  - change (pass_whitespace (true, c :: r)) with (true, [SPACE]).
    rewrite flat_cons. constructor; [reflexivity | exact IH].
  - change (pass_whitespace (false, c :: r)) with (false, c :: r).
    rewrite flat_cons. apply Forall_app. split; [|exact IH].
    eapply Forall_impl; [|exact Hall]. simpl. intros d Hd.
    destruct (is_newline d) eqn:E; [|reflexivity].
    apply newline_is_whitespace in E. congruence.
Qed.

Lemma utils_sanitize_runs s :
  Utils.sanitizeText (VString s) =
  Normal (flat (map pass_whitespace (runs Bool.eqb is_whitespace (trim s)))).
Proof.
  unfold Utils.sanitizeText. destruct s as [|c s]; [reflexivity|].
  cbn [truthy length Nat.eqb negb call_trim cbind].
  f_equal.
  pose proof (runs_wf Bool.eqb bool_eqb_eq is_whitespace (trim (c :: s))) as Hwf.
  rewrite <- (flat_runs Bool.eqb is_whitespace (trim (c :: s))) at 1.
  rewrite (replace_flat Bool.eqb bool_eqb_eq whitespace_run [SPACE] true
             whitespace_class Hwf).
  fold pass_whitespace.
  rewrite <- (app_nil_r (flat _)) at 1.
  rewrite (@replace_skip_all _ _ _ [] (no_newline_left (proj1 Hwf))).
  apply app_nil_r.
Qed.

Lemma utils_sanitize_fixed s y :
  Utils.sanitizeText (VString s) = Normal y ->
  Utils.sanitizeText (VString y) = Normal y.
Proof.
  rewrite utils_sanitize_runs. intros H. inversion H as [Hy]. clear H.
  set (R0 := runs Bool.eqb is_whitespace (trim s)) in *.
  set (R1 := map pass_whitespace R0) in *.
  assert (Hwf0 : wf_runs is_whitespace R0) by apply (runs_wf Bool.eqb bool_eqb_eq).
  assert (Hwf1 : wf_runs is_whitespace R1) by now apply pass_whitespace_wf.
  assert (Hends : ends_ok (fun b : bool => b) R1).
  { unfold R1. apply ends_ok_map; [apply fst_collapse|].
    apply (runs_trim_ends_ok Bool.eqb is_whitespace (fun b : bool => b) s
             bool_eqb_eq whitespace_id). }
  rewrite utils_sanitize_runs. f_equal.
  rewrite (trimmed_trim (proj2 (trimmed_flat (fun b : bool => b) whitespace_id
                                  (proj1 Hwf1)) Hends)).
  rewrite (runs_flat Bool.eqb bool_eqb_eq Hwf1).
  unfold R1. now rewrite (pass_whitespace_idempotent (proj1 Hwf0)).
Qed.

(** ** The sanitiser: what the specification states *)

(** C3 (sanitize, the [sanitizeText] the orchestrator runs).  A falsy input
    gives the empty string.  A string is trimmed and then every maximal run
    of the trimmed input is treated: a run of white space other than line
    feeds becomes one space, a run of three or more line feeds becomes two,
    everything else is kept.  "Hello    world" gives "Hello world", and
    "Line 1", four line feeds, "Line 2" gives "Line 1", two line feeds,
    "Line 2". *)
Theorem sanitizeText_spec :
  (forall text, truthy text = false -> Background.sanitizeText text = Normal []) /\
  (forall s, Background.sanitizeText (VString s) = Normal (sanitize_spec s)) /\
  Background.sanitizeText (VString (lit "Hello    world")) =
    Normal (lit "Hello world") /\
  Background.sanitizeText (VString Scenario.four_newlines) =
    Normal (lit "Line 1" ++ [LF; LF] ++ lit "Line 2").
Proof.
  split; [|split; [exact background_sanitize_spec | split; reflexivity]].
  intros text H. unfold Background.sanitizeText. now rewrite H.
Qed.

Lemma sanitizeText_spec_witness :
  truthy VNull = false /\ Background.sanitizeText VNull = Normal [].
Proof.
  split; [reflexivity|].
  apply (proj1 sanitizeText_spec VNull). reflexivity.
Defined.

(** C9 (idempotence).  Sanitising a string always returns, and sanitising the
    result again returns it unchanged; this holds for the worker's copy and
    for the copy of the shared utilities. *)
Theorem sanitizeText_idempotent (x : jsstring) :
  (exists y, Background.sanitizeText (VString x) = Normal y /\
             Background.sanitizeText (VString y) = Normal y) /\
  (exists y, Utils.sanitizeText (VString x) = Normal y /\
             Utils.sanitizeText (VString y) = Normal y).
Proof.
  split.
  - exists (sanitize_spec x). split; [apply background_sanitize_spec|].
    apply (background_sanitize_fixed x), background_sanitize_spec.
  - eexists. split; [apply utils_sanitize_runs|].
    apply (utils_sanitize_fixed x), utils_sanitize_runs.
Qed.

(** C10 (the two copies of [sanitizeText]).  On the input of the test suite,
    "Line 1", four line feeds, "Line 2", the worker's copy keeps a paragraph
    break of two line feeds while the copy of the shared utilities returns
    "Line 1 Line 2": its first pass [/\s+/g] has already turned the line feeds
    into a space. *)
Theorem sanitizeText_copies_differ :
  Background.sanitizeText (VString Scenario.four_newlines) =
    Normal (lit "Line 1" ++ [LF; LF] ++ lit "Line 2") /\
  Utils.sanitizeText (VString Scenario.four_newlines) =
    Normal (lit "Line 1 Line 2").
Proof. split; reflexivity. Qed.

(** ** Prefixes and substrings *)

Lemma startsWith_spec prefix s :
  startsWith prefix s = true <-> has_prefix prefix s.
Proof.
  revert s. induction prefix as [|a prefix IH]; intros s; simpl.
  - split; [intros _; now exists s | reflexivity].
  - destruct s as [|b s].
    + split; [discriminate | intros [rest H]; discriminate].
    + rewrite andb_true_iff, N.eqb_eq, IH. split.
      * intros [-> [rest ->]]. now exists rest.
      * intros [rest H]. inversion H. split; [reflexivity | now exists rest].
Qed.

Lemma includes_spec needle s :
  includes needle s = true <-> contains needle s.
Proof.
  induction s as [|c s IH]; simpl; rewrite orb_true_iff, startsWith_spec.
  - split.
    + intros [[rest H] | H]; [|discriminate]. now exists [], rest.
    + intros (before & after & H). left.
      destruct before; [|discriminate]. now exists after.
  - rewrite IH. split.
    + intros [[rest H] | (before & after & H)].
      * now exists [], rest.
      * exists (c :: before), after. simpl. now rewrite H.
    + intros (before & after & H). destruct before as [|b before].
      * left. now exists after.
      * right. inversion H. now exists before, after.
Qed.

Lemma not_includes needle s :
  includes needle s = false <-> ~ contains needle s.
Proof.
  rewrite <- includes_spec. now destruct (includes needle s).
Qed.

Lemma string_eqb_eq a b : string_eqb a b = true <-> a = b.
Proof.
  revert b. induction a as [|x a IH]; intros [|y b]; simpl;
    try (split; [discriminate | congruence]); [tauto|].
  rewrite andb_true_iff, N.eqb_eq, IH.
  split; [intros [-> ->] | intros H; inversion H]; auto.
Qed.

Lemma string_eqb_refl a : string_eqb a a = true.
Proof. now apply string_eqb_eq. Qed.

Lemma string_eqb_neq a b : a <> b -> string_eqb a b = false.
Proof.
  intros H. destruct (string_eqb a b) eqn:E; [|reflexivity].
  apply string_eqb_eq in E. contradiction.
Qed.

(** ** The validators *)

Lemma str_length_nil : str_length [] = 0%Z.
Proof. reflexivity. Qed.

Lemma validateText_string s :
  s <> [] ->
  Background.validateText (VString s) =
    (if (str_length (trim s) <? 10)%Z then
       Validation false
         (Some (lit "Selected text is too short. Please select at least 10 characters."))
     else if (10000 <? str_length (trim s))%Z then
       Validation false
         (Some (lit "Selected text is too long. Please select less than 10,000 characters."))
     else Validation true None) /\
  Utils.validateText (VString s) = Background.validateText (VString s).
Proof.
  destruct s as [|c s]; [congruence|]. intros _. split; reflexivity.
Qed.

Lemma trimmed_length_nonempty s :
  (10 <= str_length (trim s))%Z -> s <> [].
Proof.
  intros H ->. change (trim []) with (@nil code_unit) in H.
  rewrite str_length_nil in H. lia.
Qed.

Lemma valid_iff text :
  valid (Background.validateText text) = true <->
  exists s, text = VString s /\ (10 <= str_length (trim s) <= 10000)%Z.
Proof.
  split.
  - destruct text as [| |b|n|s|l|o|m]; try discriminate.
    destruct s as [|c s]; [discriminate|].
    rewrite (proj1 (validateText_string (s := c :: s) ltac:(discriminate))).
    destruct (str_length (trim (c :: s)) <? 10)%Z eqn:E; [discriminate|].
    destruct (10000 <? str_length (trim (c :: s)))%Z eqn:E2; [discriminate|].
    intros _. exists (c :: s). apply Z.ltb_ge in E, E2. auto.
  - intros (s & -> & H).
    rewrite (proj1 (validateText_string (@trimmed_length_nonempty s (proj1 H)))).
    destruct (str_length (trim s) <? 10)%Z eqn:E; [apply Z.ltb_lt in E; lia|].
    destruct (10000 <? str_length (trim s))%Z eqn:E2; [apply Z.ltb_lt in E2; lia|].
    reflexivity.
Qed.

(** C7 (validateText).  A value that is not a string, or the empty string
    (absent text), is refused with the no-text message; a non-empty string is
    refused with the too-short message when its trimmed length is below 10
    and with the too-long message when it is above 10000; a string whose
    trimmed length lies in 10..10000 is accepted, and nothing else is.  The
    worker's copy and the copy of the shared utilities differ in the wording
    of the no-text message only. *)
Theorem validateText_spec (text : value) :
  (((forall s, text <> VString s) \/ text = VString []) ->
     Background.validateText text =
       Validation false (Some (lit "No text provided")) /\
     Utils.validateText text =
       Validation false
         (Some (lit "Please highlight some text on the webpage first."))) /\
  (forall s, text = VString s -> s <> [] -> (str_length (trim s) < 10)%Z ->
     Background.validateText text =
       Validation false
         (Some (lit "Selected text is too short. Please select at least 10 characters.")) /\
     Utils.validateText text =
       Validation false
         (Some (lit "Selected text is too short. Please select at least 10 characters."))) /\
  (forall s, text = VString s -> (10000 < str_length (trim s))%Z ->
     Background.validateText text =
       Validation false
         (Some (lit "Selected text is too long. Please select less than 10,000 characters.")) /\
     Utils.validateText text =
       Validation false
         (Some (lit "Selected text is too long. Please select less than 10,000 characters."))) /\
  (forall s, text = VString s -> (10 <= str_length (trim s) <= 10000)%Z ->
     Background.validateText text = Validation true None /\
     Utils.validateText text = Validation true None) /\
  (valid (Background.validateText text) = true <->
     exists s, text = VString s /\ (10 <= str_length (trim s) <= 10000)%Z) /\
  (valid (Utils.validateText text) = true <->
     exists s, text = VString s /\ (10 <= str_length (trim s) <= 10000)%Z).
Proof.
  split; [|split; [|split; [|split; [|split]]]].
  - intros [H | ->]; [|split; reflexivity].
    destruct text as [| |b|n|s|l|o|m]; try (split; reflexivity).
    now destruct (H s).
  - intros s -> Hne Hlt. destruct (validateText_string Hne) as [Hb Hu].
    rewrite Hu, Hb. apply Z.ltb_lt in Hlt. rewrite Hlt. auto.
  - intros s -> Hgt.
    assert (Hne : s <> []) by (apply trimmed_length_nonempty; lia).
    destruct (validateText_string Hne) as [Hb Hu]. rewrite Hu, Hb.
    destruct (str_length (trim s) <? 10)%Z eqn:E; [apply Z.ltb_lt in E; lia|].
    apply Z.ltb_lt in Hgt. rewrite Hgt. auto.
  - intros s -> [Hlo Hhi].
    destruct (validateText_string (@trimmed_length_nonempty s Hlo)) as [Hb Hu].
    rewrite Hu, Hb.
    destruct (str_length (trim s) <? 10)%Z eqn:E; [apply Z.ltb_lt in E; lia|].
    destruct (10000 <? str_length (trim s))%Z eqn:E2; [apply Z.ltb_lt in E2; lia|].
    auto.
  - apply valid_iff.
  - rewrite <- valid_iff.
    destruct text as [| |b|n|s|l|o|m]; try reflexivity.
    destruct s as [|c s]; [reflexivity|].
    now rewrite (proj2 (validateText_string (s := c :: s) ltac:(discriminate))).
Qed.

Lemma validateText_spec_witness :
  (Background.validateText VNull =
     Validation false (Some (lit "No text provided"))) /\
  (Background.validateText (VString (lit "Hi")) =
     Validation false
       (Some (lit "Selected text is too short. Please select at least 10 characters."))) /\
  (Background.validateText (VString (repeat 97%N 10001)) =
     Validation false
       (Some (lit "Selected text is too long. Please select less than 10,000 characters."))) /\
  (str_length Scenario.selection = 57%Z /\
   Background.validateText (VString Scenario.selection) = Validation true None).
Proof.
  split; [|split; [|split; [|split]]].
  - destruct (validateText_spec VNull) as (H & _).
    assert (Habsent : (forall s, VNull <> VString s) \/ VNull = VString [])
      by (left; discriminate).
    exact (proj1 (H Habsent)).
  - destruct (validateText_spec (VString (lit "Hi"))) as (_ & H & _).
    assert (Hne : lit "Hi" <> []) by discriminate.
    assert (Hlen : (str_length (trim (lit "Hi")) < 10)%Z) by reflexivity.
    exact (proj1 (H (lit "Hi") eq_refl Hne Hlen)).
  - destruct (validateText_spec (VString (repeat 97%N 10001))) as (_ & _ & H & _).
    assert (Hlen : (10000 < str_length (trim (repeat 97%N 10001)))%Z)
      by (vm_compute; reflexivity).
    exact (proj1 (H (repeat 97%N 10001) eq_refl Hlen)).
  - reflexivity.
  - destruct (validateText_spec (VString Scenario.selection)) as (_ & _ & _ & H & _).
    assert (Hlen : (10 <= str_length (trim Scenario.selection) <= 10000)%Z)
      by (vm_compute; split; discriminate).
    exact (proj1 (H Scenario.selection eq_refl Hlen)).
Defined.

(** C8 (validateApiKey).  The result is [true] exactly for a string that
    starts with "sk-" and is longer than 20 code units: "sk-" followed by 18
    code units (length 21) is accepted; a "pk-" prefix, "sk-short", the empty
    string and [null] are rejected. *)
Theorem validateApiKey_spec :
  (forall apiKey,
     Utils.validateApiKey apiKey = true <->
     exists s, apiKey = VString s /\ has_prefix (lit "sk-") s /\
               (20 < str_length s)%Z) /\
  (forall rest, length rest = 18 ->
     Utils.validateApiKey (VString (lit "sk-" ++ rest)) = true) /\
  (forall rest, Utils.validateApiKey (VString (lit "pk-" ++ rest)) = false) /\
  Utils.validateApiKey (VString (lit "sk-short")) = false /\
  Utils.validateApiKey (VString []) = false /\
  Utils.validateApiKey VNull = false.
Proof.
  assert (Hiff : forall apiKey,
     Utils.validateApiKey apiKey = true <->
     exists s, apiKey = VString s /\ has_prefix (lit "sk-") s /\
               (20 < str_length s)%Z).
  { intros apiKey. split.
    - destruct apiKey as [| |b|n|s|l|o|m]; try discriminate.
      destruct s as [|c s]; [discriminate|].
      unfold Utils.validateApiKey. cbn [truthy length Nat.eqb negb].
      rewrite andb_true_iff, startsWith_spec, Z.ltb_lt. intros [H1 H2].
      now exists (c :: s).
    - intros (s & -> & Hp & Hl). destruct s as [|c s].
      + rewrite str_length_nil in Hl. lia.
      + unfold Utils.validateApiKey. cbn [truthy length Nat.eqb negb].
        rewrite andb_true_iff, startsWith_spec, Z.ltb_lt. auto. }
  split; [exact Hiff|]. split; [|repeat split].
  intros rest H. apply Hiff. exists (lit "sk-" ++ rest). repeat split.
  - now exists rest.
  - unfold str_length. rewrite length_app, H. reflexivity.
Qed.

Lemma validateApiKey_spec_witness :
  length (lit "123456789012345678") = 18 /\
  Utils.validateApiKey (VString (lit "sk-" ++ lit "123456789012345678")) = true.
Proof.
  split; [reflexivity|].
  apply (proj1 (proj2 validateApiKey_spec) (lit "123456789012345678")).
  reflexivity.
Defined.

(** ** The error classifier *)

(** C4 (classifyError, the [formatErrorMessage] of the shared utilities).  A
    string is returned unchanged.  For an error, the message is searched for
    "401", then "429", then "500", and the first hit selects the
    invalid-credential, rate-limited or service-error text; with no hit the
    error's own message is returned, or the generic text when that message
    is empty. *)
Theorem formatErrorMessage_spec :
  (forall s, Utils.formatErrorMessage (VString s) = s) /\
  (forall m, contains (lit "401") m ->
     Utils.formatErrorMessage (VError m) =
     lit "Invalid API key. Please check your OpenAI API key.") /\
  (forall m, ~ contains (lit "401") m -> contains (lit "429") m ->
     Utils.formatErrorMessage (VError m) =
     lit "Rate limit exceeded. Please try again later.") /\
  (forall m, ~ contains (lit "401") m -> ~ contains (lit "429") m ->
     contains (lit "500") m ->
     Utils.formatErrorMessage (VError m) =
     lit "OpenAI service error. Please try again later.") /\
  (forall m, ~ contains (lit "401") m -> ~ contains (lit "429") m ->
     ~ contains (lit "500") m -> m <> [] ->
     Utils.formatErrorMessage (VError m) = m) /\
  Utils.formatErrorMessage (VError []) =
    lit "Failed to generate summary. Please check your API key and try again.".
Proof.
  split; [reflexivity|]. split; [|split; [|split; [|split; [|reflexivity]]]].
  - intros m H. apply includes_spec in H. simpl. now rewrite H.
  - intros m H1 H2. apply not_includes in H1. apply includes_spec in H2.
    simpl. now rewrite H1, H2.
  - intros m H1 H2 H3. apply not_includes in H1, H2. apply includes_spec in H3.
    simpl. now rewrite H1, H2, H3.
  - intros m H1 H2 H3 Hne. apply not_includes in H1, H2, H3.
    simpl. rewrite H1, H2, H3. destruct m; [congruence | reflexivity].
Qed.

Lemma formatErrorMessage_spec_witness :
  Utils.formatErrorMessage (VError (lit "Request failed with status 401")) =
    lit "Invalid API key. Please check your OpenAI API key." /\
  Utils.formatErrorMessage (VError (lit "Request failed with status 429")) =
    lit "Rate limit exceeded. Please try again later." /\
  Utils.formatErrorMessage (VError (lit "Request failed with status 500")) =
    lit "OpenAI service error. Please try again later." /\
  Utils.formatErrorMessage (VError (lit "Something went wrong")) =
    lit "Something went wrong".
Proof.
  destruct formatErrorMessage_spec as (_ & H401 & H429 & H500 & Hown & _).
  split; [|split; [|split]].
  - apply H401. apply includes_spec. reflexivity.
  - apply H429; [apply not_includes | apply includes_spec]; reflexivity.
  - apply H500; [apply not_includes | apply not_includes | apply includes_spec];
      reflexivity.
  - apply Hown; [apply not_includes | apply not_includes | apply not_includes | ];
      [reflexivity | reflexivity | reflexivity | discriminate].
Defined.

(** ** The response parser *)

(** The cases of a value, closed by computation; a number is truthy or not
    according to its comparison with zero. *)
Ltac by_value v :=
  destruct v as [| |[|]|[|?]|[|? ?]|?|?|?];
  try reflexivity;
  try (simpl;
       match goal with
       | |- context [Qeq_bool ?q 0] => destruct (Qeq_bool q 0)
       end; reflexivity).

(** From the first choice on: [.message?.content], the test of the content
    and the trimming, under the handler of the parser. *)
Lemma read_choice msg first :
  try_catch
    (message <- get first (lit "message") ;;
     summary <- get_optional message (lit "content") ;;
     if negb (truthy summary) then Throw (Err msg) else call_trim summary)
    (fun _ => Throw (Err msg)) =
  match content_of_choice first with
  | Some s => Normal (trim s)
  | None => Throw (Err msg)
  end.
Proof.
  by_value first.
  match goal with choice : list (jsstring * value) |- _ =>
    cbn [get cbind content_of_choice];
    destruct (get_field (lit "message") choice) as [message|]; [|reflexivity]
  end.
  by_value message.
  match goal with fields : list (jsstring * value) |- _ =>
    cbn [get_optional get cbind];
    destruct (get_field (lit "content") fields) as [content|]; [|reflexivity]
  end.
  by_value content.
Qed.

(** The whole parser against [summary_content], the same script for both
    copies. *)
Ltac parse_cases response :=
  by_value response;
  match goal with
  | fields : list (jsstring * value) |- _ =>
    cbn [truthy negb get cbind summary_content];
    destruct (get_field (lit "choices") fields) as [choices|]; [|reflexivity];
    by_value choices;
    [ match goal with
      | elements : list value |- _ =>
        destruct elements as [|first rest]; [reflexivity|];
        cbn [truthy negb get cbind];
        change (strict_equal_zero _) with false;
        cbn [first_choice hd_error get_index nth_error cbind];
        apply read_choice
      end
    | match goal with
      | cfields : list (jsstring * value) |- _ =>
        cbn [truthy negb get cbind first_choice];
        destruct (get_field (lit "length") cfields) as [len|];
        [ destruct (strict_equal_zero len); [reflexivity|]
        | change (strict_equal_zero VUndefined) with false ];
        cbn [get_index cbind];
        change (lit (NilEmpty.string_of_uint (Nat.to_uint 0))) with (lit "0");
        (destruct (get_field (lit "0") cfields) as [first|];
         [apply read_choice | reflexivity])
      end ]
  end.

Lemma background_parse response :
  Background.parseApiResponse response =
  match summary_content response with
  | Some s => Normal (trim s)
  | None => Throw (Err (lit "Invalid response from API"))
  end.
Proof.
  unfold Background.parseApiResponse. parse_cases response.
Qed.

Lemma utils_parse response :
  Utils.parseApiResponse response =
  match summary_content response with
  | Some s => Normal (trim s)
  | None => Throw (Err (lit "Received invalid response from API."))
  end.
Proof.
  unfold Utils.parseApiResponse. parse_cases response.
Qed.

(** C5 (parseSummary, both copies of [parseApiResponse]).  The parser throws
    the invalid-response error exactly when the response has no non-empty
    string at [choices[0].message.content]: the response or its [choices] is
    missing, [choices] is empty, the first choice or its [message] is
    missing, or [content] is falsy or not a string.  Otherwise it returns
    that string trimmed. *)
Theorem parseApiResponse_spec (response : value) :
  (Background.parseApiResponse response =
     Throw (Err (lit "Invalid response from API")) <->
   summary_content response = None) /\
  (Utils.parseApiResponse response =
     Throw (Err (lit "Received invalid response from API.")) <->
   summary_content response = None) /\
  (forall s, summary_content response = Some s ->
     s <> [] /\
     Background.parseApiResponse response = Normal (trim s) /\
     Utils.parseApiResponse response = Normal (trim s)).
Proof.
  rewrite background_parse, utils_parse.
  destruct (summary_content response) as [s|] eqn:E.
  - split; [split; discriminate|]. split; [split; discriminate|].
    intros s' H. inversion H. subst s'. split; [|auto].
    revert E. unfold summary_content.
    destruct response as [| | | | | |fields|]; try discriminate.
    destruct (get_field (lit "choices") fields) as [choices|]; [|discriminate].
    destruct (first_choice choices) as [choice|]; [|discriminate].
    unfold content_of_choice.
    destruct choice as [| | | | | |cf|]; try discriminate.
    destruct (get_field (lit "message") cf) as [[| | | | | |mf|]|]; try discriminate.
    destruct (get_field (lit "content") mf) as [[| | | |[|c t]| | |]|];
      try discriminate.
    intros H'. inversion H'. discriminate.
  - split; [tauto|]. split; [tauto|]. discriminate.
Qed.

Lemma parseApiResponse_spec_witness :
  summary_content (Scenario.success_body (lit "A short summary.")) =
    Some (lit "A short summary.") /\
  Background.parseApiResponse (Scenario.success_body (lit "A short summary.")) =
    Normal (lit "A short summary.").
Proof.
  split; [reflexivity|].
  destruct (parseApiResponse_spec
              (Scenario.success_body (lit "A short summary."))) as (_ & _ & H).
  exact (proj1 (proj2 (H (lit "A short summary.") eq_refl))).
Defined.

(** ** The store *)

Lemma get_field_remove_other key key' fields :
  key <> key' -> get_field key (remove_field key' fields) = get_field key fields.
Proof.
  intros Hne. induction fields as [|[k v] fields IH]; [reflexivity|]. simpl.
  destruct (string_eqb k key') eqn:E.
  - apply string_eqb_eq in E. subst k.
    rewrite (string_eqb_neq (not_eq_sym Hne)). exact IH.
  - simpl. now rewrite IH.
Qed.

Lemma get_field_set_other key key' v fields :
  key <> key' -> get_field key (set_field key' v fields) = get_field key fields.
Proof.
  intros Hne. unfold set_field. simpl.
  rewrite (string_eqb_neq (not_eq_sym Hne)).
  now apply get_field_remove_other.
Qed.

Lemma stored_last_summary summary now w1 :
  let w' := storage_set (last_summary_items summary now) w1 in
  sent w' = sent w1 /\
  get_field (lit "last_summary") (local_storage w') = Some (VString summary) /\
  get_field (lit "last_summary_time") (local_storage w') =
    Some (VNumber (Num (inject_Z now))) /\
  (forall key, key <> lit "last_summary" -> key <> lit "last_summary_time" ->
     get_field key (local_storage w') = get_field key (local_storage w1)).
Proof.
  unfold storage_set, last_summary_items.
  cbn [fold_left fst snd local_storage sent].
  split; [reflexivity|]. split; [reflexivity|]. split; [reflexivity|].
  intros key H1 H2. now rewrite !get_field_set_other.
Qed.

(** ** The orchestrator *)

Section WorkerFacts.

Variable fetch : request -> fetch_result.
Variable now : Z.
Variable ToString_other : value -> jsstring.
Variable type_error_message : jsstring.

(** The remote call sends one request and leaves the store alone; its
    outcome is the body of [callOpenAI] read on the answer of the transport. *)
Lemma callOpenAI_unfold prompt k w :
  Background.callOpenAI fetch ToString_other type_error_message prompt
    (VString k) w =
  (try_catch
    (match fetch (summary_request k prompt) with
     | Rejected e => Throw e
     | Resolved response =>
       if negb (ok response) then
         let errorData :=
           match json response with
           | Normal d => d
           | Throw _ => VObject []
           end in
         if (status response =? 401)%N then
           Throw (Err (lit "Invalid API key. Please check your OpenAI API key."))
         else if (status response =? 429)%N then
           Throw (Err (lit "Rate limit exceeded. Please try again later."))
         else if (status response =? 500)%N then
           Throw (Err (lit "OpenAI service error. Please try again later."))
         else
           err <- get errorData (lit "error") ;;
           message <- get_optional err (lit "message") ;;
           Throw (Err (if truthy message
                       then Background.ToString ToString_other message
                       else lit "API error: " ++ Background.decimal (status response)))
       else
         data <- json response ;; Background.parseApiResponse data
     end)
    (fun error =>
       if includes (lit "Failed to fetch")
            (Background.message_of type_error_message error)
       then Throw (Err (lit "Network error. Please check your internet connection."))
       else Throw error),
   World (local_storage w) (summary_request k prompt :: sent w)).
Proof.
  unfold Background.callOpenAI, io_try, io_bind, Background.send, io_throw, io_lift.
  cbn [Background.ToString]. fold (summary_request k prompt).
  destruct (fetch (summary_request k prompt)) as [e|r].
  - simpl. destruct (includes _ _); reflexivity.
  - destruct (negb (ok r)).
    + destruct (status r =? 401)%N; [reflexivity|].
      destruct (status r =? 429)%N; [reflexivity|].
      destruct (status r =? 500)%N; [reflexivity|].
      cbv zeta.
      match goal with
      | |- match ?c with Normal _ => _ | Throw _ => _ end = _ =>
        destruct c as [a|e]
      end; simpl; [reflexivity | destruct (includes _ _); reflexivity].
    + match goal with
      | |- match ?c with Normal _ => _ | Throw _ => _ end = _ =>
        destruct c as [a|e]
      end; simpl; [reflexivity | destruct (includes _ _); reflexivity].
Qed.

Lemma callOpenAI_normal prompt k w summary :
  fst (Background.callOpenAI fetch ToString_other type_error_message prompt
         (VString k) w) = Normal summary <->
  exists resp data,
    fetch (summary_request k prompt) = Resolved resp /\ ok resp = true /\
    json resp = Normal data /\
    Background.parseApiResponse data = Normal summary.
Proof.
  rewrite callOpenAI_unfold. cbn [fst].
  destruct (fetch (summary_request k prompt)) as [e|r].
  - split.
    + simpl. destruct (includes _ _); discriminate.
    + intros (resp & data & H & _). discriminate.
  - destruct (ok r) eqn:Hok; cbn [negb].
    + destruct (json r) as [data|e] eqn:Hj; cbn [cbind].
      * destruct (Background.parseApiResponse data) as [a|e] eqn:Hp; simpl.
        -- split.
           ++ intros H. inversion H. subst. exists r, data. auto.
           ++ intros (resp & data' & H & _ & Hj' & Hp'). inversion H. subst.
              rewrite Hj in Hj'. inversion Hj'. subst. now rewrite Hp in Hp'.
        -- split.
           ++ destruct (includes _ _); discriminate.
           ++ intros (resp & data' & H & _ & Hj' & Hp'). inversion H. subst.
              rewrite Hj in Hj'. inversion Hj'. subst.
              rewrite Hp in Hp'. discriminate.
      * split.
        -- simpl. destruct (includes _ _); discriminate.
        -- intros (resp & data' & H & _ & Hj' & _). inversion H. subst.
           rewrite Hj in Hj'. discriminate.
    + split.
      * destruct (status r =? 401)%N; [discriminate|].
        destruct (status r =? 429)%N; [discriminate|].
        destruct (status r =? 500)%N; [discriminate|].
        cbv zeta. destruct (get _ (lit "error")) as [err|e]; cbn [cbind].
        -- destruct (get_optional err (lit "message")) as [m|e]; simpl;
             destruct (includes _ _); discriminate.
        -- simpl. destruct (includes _ _); discriminate.
      * intros (resp & data & H & Hok' & _). inversion H. subst. congruence.
Qed.

Lemma handle_refused text apiKey w :
  credential_refused apiKey ->
  Background.handleSummarization fetch now ToString_other type_error_message
    text apiKey w =
  (Throw (Err (lit "Invalid API key")), w).
Proof.
  unfold Background.handleSummarization, io_bind, io_lift, io_throw.
  intros [Hf | (k & -> & Hp)].
  - now rewrite Hf.
  - destruct k as [|c k]; [reflexivity|].
    cbn [truthy length Nat.eqb negb call_startsWith cbind].
    destruct (startsWith (lit "sk-") (c :: k)) eqn:E; [|reflexivity].
    apply startsWith_spec in E. contradiction.
Qed.

Lemma handle_accepted text k w :
  has_prefix (lit "sk-") k ->
  Background.handleSummarization fetch now ToString_other type_error_message
    text (VString k) w =
  if negb (valid (Background.validateText text)) then
    (Throw (Err (match error (Background.validateText text) with
                 | Some m => m
                 | None => lit "null"
                 end)), w)
  else
    match Background.sanitizeText text with
    | Normal sanitizedText =>
      match Background.callOpenAI fetch ToString_other type_error_message
              (Background.createSummaryPrompt sanitizedText) (VString k) w with
      | (Normal summary, w1) =>
        (Normal summary, storage_set (last_summary_items summary now) w1)
      | (Throw e, w1) => (Throw e, w1)
      end
    | Throw e => (Throw e, w)
    end.
Proof.
  intros Hp. apply startsWith_spec in Hp.
  destruct k as [|c k]; [discriminate|].
  unfold Background.handleSummarization, io_bind, io_lift, io_throw, io_try.
  cbn [truthy length Nat.eqb negb call_startsWith cbind].
  rewrite Hp. cbn [negb].
  destruct (negb (valid (Background.validateText text))); [reflexivity|].
  destruct (Background.sanitizeText text) as [t|e]; [|reflexivity].
  destruct (Background.callOpenAI _ _ _ _ _ _) as [[summary|e] w1]; reflexivity.
Qed.

Lemma handle_not_string text apiKey w :
  truthy apiKey = true -> (forall k, apiKey <> VString k) ->
  Background.handleSummarization fetch now ToString_other type_error_message
    text apiKey w =
  (Throw TypeErr, w).
Proof.
  intros Ht Hn.
  unfold Background.handleSummarization, io_bind, io_lift, io_throw.
  rewrite Ht. destruct apiKey; try reflexivity. now destruct (Hn s).
Qed.

Lemma credential_cases apiKey :
  credential_refused apiKey \/
  (exists k, apiKey = VString k /\ has_prefix (lit "sk-") k) \/
  (truthy apiKey = true /\ forall k, apiKey <> VString k).
Proof.
  destruct (truthy apiKey) eqn:Ht; [|left; now left].
  destruct apiKey as [| |b|n|k|l|o|m];
    try (right; right; split; [reflexivity | discriminate]).
  destruct (startsWith (lit "sk-") k) eqn:E.
  - right. left. exists k. split; [reflexivity | now apply startsWith_spec].
  - left. right. exists k. split; [reflexivity|].
    intros H. apply startsWith_spec in H. congruence.
Qed.

Lemma valid_is_string text :
  valid (Background.validateText text) = true ->
  exists s, text = VString s.
Proof.
  destruct text; try discriminate. intros _. now exists s.
Qed.

(** C1 (handleSummarization).  When the orchestrator's test of the credential
    fails, or the credential passes and [validateText] refuses the text, the
    run throws the validation error and the world is unchanged: no request
    was sent and [chrome.storage.local] is as before.  A run that returns a
    summary has sent exactly one request, has received a successful response
    whose body [parseApiResponse] accepts, returns the parsed summary, and
    has stored it under [last_summary] with the current time under
    [last_summary_time], the other keys being kept.  Conversely such a
    response makes the run return that summary. *)
Theorem handleSummarization_spec text apiKey w :
  (credential_refused apiKey ->
     Background.handleSummarization fetch now ToString_other type_error_message
       text apiKey w =
     (Throw (Err (lit "Invalid API key")), w)) /\
  (forall k, apiKey = VString k -> has_prefix (lit "sk-") k ->
     valid (Background.validateText text) = false ->
     exists msg,
       error (Background.validateText text) = Some msg /\
       Background.handleSummarization fetch now ToString_other
         type_error_message text apiKey w =
       (Throw (Err msg), w)) /\
  (forall summary w',
     Background.handleSummarization fetch now ToString_other type_error_message
       text apiKey w = (Normal summary, w') ->
     exists k s resp data,
       apiKey = VString k /\ text = VString s /\
       let req :=
         summary_request k (Background.createSummaryPrompt (sanitize_spec s)) in
       fetch req = Resolved resp /\ ok resp = true /\
       json resp = Normal data /\
       Background.parseApiResponse data = Normal summary /\
       sent w' = req :: sent w /\
       get_field (lit "last_summary") (local_storage w') =
         Some (VString summary) /\
       get_field (lit "last_summary_time") (local_storage w') =
         Some (VNumber (Num (inject_Z now))) /\
       (forall key,
          key <> lit "last_summary" -> key <> lit "last_summary_time" ->
          get_field key (local_storage w') = get_field key (local_storage w))) /\
  (forall k s resp data summary,
     apiKey = VString k -> text = VString s ->
     has_prefix (lit "sk-") k ->
     valid (Background.validateText text) = true ->
     fetch (summary_request k (Background.createSummaryPrompt (sanitize_spec s)))
       = Resolved resp ->
     ok resp = true -> json resp = Normal data ->
     Background.parseApiResponse data = Normal summary ->
     exists w',
       Background.handleSummarization fetch now ToString_other
         type_error_message text apiKey w = (Normal summary, w')).
Proof.
  split; [apply handle_refused|]. split; [|split].
  - intros k -> Hp Hv. rewrite (handle_accepted text w Hp), Hv. cbn [negb].
    destruct text as [| |b|n|s|l|o|m]; try (eexists; split; reflexivity).
    destruct s as [|c s]; [eexists; split; reflexivity|].
    revert Hv. unfold Background.validateText. cbn [truthy length Nat.eqb negb].
    destruct (str_length (trim (c :: s)) <? 10)%Z;
      [intros _; eexists; split; reflexivity|].
    destruct (10000 <? str_length (trim (c :: s)))%Z;
      [intros _; eexists; split; reflexivity | discriminate].
  - intros summary w' Hrun.
    destruct (credential_cases apiKey) as [Hr | [(k & -> & Hp) | [Ht Hn]]].
    + rewrite (handle_refused text w Hr) in Hrun. discriminate.
    + rewrite (handle_accepted text w Hp) in Hrun.
      destruct (valid (Background.validateText text)) eqn:Hv;
        cbn [negb] in Hrun; [|discriminate].
      destruct (valid_is_string text Hv) as [s ->].
      rewrite background_sanitize_spec in Hrun.
      pose proof (callOpenAI_unfold
                    (Background.createSummaryPrompt (sanitize_spec s)) k w) as Hw.
      pose proof (callOpenAI_normal
                    (Background.createSummaryPrompt (sanitize_spec s)) k w) as Hn.
      destruct (Background.callOpenAI _ _ _ _ (VString k) w) as [[a|e] w1];
        [|discriminate].
      inversion Hrun. subst a w'. clear Hrun.
      destruct (proj1 (Hn summary) eq_refl)
        as (resp & data & Hf & Hok & Hj & Hparse).
      apply (f_equal snd) in Hw. cbn [snd] in Hw. subst w1.
      exists k, s, resp, data.
      destruct (stored_last_summary summary now
                  (World (local_storage w)
                     (summary_request k
                        (Background.createSummaryPrompt (sanitize_spec s))
                      :: sent w)))
        as (Hs & H1 & H2 & H3).
      cbv zeta. repeat (split; [assumption || reflexivity|]). exact H3.
    + rewrite (handle_not_string text w Ht Hn) in Hrun. discriminate.
  - intros k s resp data summary -> -> Hp Hv Hf Hok Hj Hparse.
    rewrite (handle_accepted (VString s) w Hp), Hv. cbn [negb].
    rewrite background_sanitize_spec.
    pose proof (proj2 (callOpenAI_normal
                  (Background.createSummaryPrompt (sanitize_spec s)) k w summary))
      as Hn.
    destruct (Background.callOpenAI _ _ _ _ (VString k) w) as [[a|e] w1].
    + cbn [fst] in Hn. rewrite Hn by eauto 8. eauto.
    + cbn [fst] in Hn. discriminate Hn. eauto 8.
Qed.

(** C2, as the code has it.  The orchestrator refuses a credential that is
    falsy or a string without the prefix "sk-", whatever the text, with the
    invalid-credential error and before anything else happens: the world is
    unchanged.  A credential with the prefix is let through whatever its
    length: with a valid text the request is sent, carrying the credential
    as bearer token. *)
Theorem credential_guard_spec text apiKey w :
  (credential_refused apiKey ->
     Background.handleSummarization fetch now ToString_other type_error_message
       text apiKey w =
     (Throw (Err (lit "Invalid API key")), w)) /\
  (forall k, apiKey = VString k -> has_prefix (lit "sk-") k ->
     valid (Background.validateText text) = true ->
     exists req,
       sent (snd (Background.handleSummarization fetch now ToString_other
                    type_error_message text apiKey w)) = req :: sent w /\
       authorization req = lit "Bearer " ++ k).
Proof.
  split; [apply handle_refused|].
  intros k -> Hp Hv. rewrite (handle_accepted text w Hp), Hv. cbn [negb].
  destruct (valid_is_string text Hv) as [s ->].
  rewrite background_sanitize_spec.
  pose proof (callOpenAI_unfold
                (Background.createSummaryPrompt (sanitize_spec s)) k w) as Hw.
  apply (f_equal snd) in Hw. cbn [snd] in Hw.
  destruct (Background.callOpenAI _ _ _ _ (VString k) w) as [[a|e] w1];
    cbn [snd] in *; subst w1; eexists; split; reflexivity.
Qed.

End WorkerFacts.

Lemma scenario_credential_prefix : has_prefix (lit "sk-") Scenario.credential.
Proof. now exists (lit "1234567890abcdefghijklmnop"). Qed.

Lemma handleSummarization_spec_witness :
  (Scenario.summarize (lit "A short summary.") (VString Scenario.selection) VNull =
     (Throw (Err (lit "Invalid API key")), Scenario.fresh)) /\
  (exists msg,
     error (Background.validateText (VString (lit "Hi"))) = Some msg /\
     Scenario.summarize (lit "A short summary.") (VString (lit "Hi"))
       (VString Scenario.credential) =
     (Throw (Err msg), Scenario.fresh)) /\
  (exists w',
     Scenario.summarize (lit "A short summary.") (VString Scenario.selection)
       (VString Scenario.credential) =
     (Normal (lit "A short summary."), w')).
Proof.
  split; [|split].
  - apply (proj1 (handleSummarization_spec
                    (Scenario.answering (lit "A short summary.")) Scenario.clock
                    Scenario.engine_ToString Scenario.engine_type_error
                    (VString Scenario.selection) VNull Scenario.fresh)).
    left. reflexivity.
  - apply (proj1 (proj2 (handleSummarization_spec
                    (Scenario.answering (lit "A short summary.")) Scenario.clock
                    Scenario.engine_ToString Scenario.engine_type_error
                    (VString (lit "Hi")) (VString Scenario.credential)
                    Scenario.fresh)) Scenario.credential);
      [reflexivity | exact scenario_credential_prefix | reflexivity].
  - apply (proj2 (proj2 (proj2 (handleSummarization_spec
                    (Scenario.answering (lit "A short summary.")) Scenario.clock
                    Scenario.engine_ToString Scenario.engine_type_error
                    (VString Scenario.selection) (VString Scenario.credential)
                    Scenario.fresh)))
             Scenario.credential Scenario.selection
             (Response true 200
                (Normal (Scenario.success_body (lit "A short summary."))))
             (Scenario.success_body (lit "A short summary."))
             (lit "A short summary."));
      try reflexivity.
    exact scenario_credential_prefix.
Defined.

(** A credential that [validateApiKey] rejects for its length is let through
    by the orchestrator: the request is sent and the summary returned. *)
Lemma short_credential_accepted :
  Utils.validateApiKey (VString (lit "sk-short")) = false /\
  fst (Scenario.summarize (lit "A short summary.") (VString Scenario.selection)
         (VString (lit "sk-short"))) =
    Normal (lit "A short summary.") /\
  sent (snd (Scenario.summarize (lit "A short summary.")
               (VString Scenario.selection) (VString (lit "sk-short")))) =
    [summary_request (lit "sk-short")
       (Background.createSummaryPrompt Scenario.selection)].
Proof. split; [|split]; vm_compute; reflexivity. Qed.

Lemma credential_guard_spec_witness :
  (Scenario.summarize (lit "A short summary.") (VString Scenario.selection)
     (VString (lit "pk-1234567890abcdefghijklmnop")) =
   (Throw (Err (lit "Invalid API key")), Scenario.fresh)) /\
  (exists req,
     sent (snd (Scenario.summarize (lit "A short summary.")
                  (VString Scenario.selection) (VString (lit "sk-short")))) =
       req :: sent Scenario.fresh /\
     authorization req = lit "Bearer " ++ lit "sk-short").
Proof.
  split.
  - apply (proj1 (credential_guard_spec
                    (Scenario.answering (lit "A short summary.")) Scenario.clock
                    Scenario.engine_ToString Scenario.engine_type_error
                    (VString Scenario.selection)
                    (VString (lit "pk-1234567890abcdefghijklmnop"))
                    Scenario.fresh)).
    right. exists (lit "pk-1234567890abcdefghijklmnop").
    split; [reflexivity|]. intros [rest H]. discriminate.
  - apply (proj2 (credential_guard_spec
                    (Scenario.answering (lit "A short summary.")) Scenario.clock
                    Scenario.engine_ToString Scenario.engine_type_error
                    (VString Scenario.selection) (VString (lit "sk-short"))
                    Scenario.fresh) (lit "sk-short"));
      [reflexivity | now exists (lit "short") | reflexivity].
Defined.

(** C6 (the summary is never empty).  A success body whose content is three
    spaces passes the test [if (!summary)], which precedes the trimming, so
    [parseApiResponse] returns the empty string; the orchestrator returns it
    and stores it under [last_summary]. *)
Theorem blank_content_gives_empty_summary :
  Background.parseApiResponse (Scenario.success_body (lit "   ")) = Normal [] /\
  fst (Scenario.summarize (lit "   ") (VString Scenario.selection)
         (VString Scenario.credential)) = Normal [] /\
  get_field (lit "last_summary")
    (local_storage
       (snd (Scenario.summarize (lit "   ") (VString Scenario.selection)
               (VString Scenario.credential)))) = Some (VString []).
Proof. split; [|split]; vm_compute; reflexivity. Qed.

(* ================================================================== *)
(** * Further properties of the code *)

(** ** The prompt *)



(** ** The remote call *)

Lemma no_first_char needle c s :
  Forall (fun d => d <> c) s -> includes (c :: needle) s = false.
Proof.
  induction 1 as [|d s Hd _ IH]; [reflexivity|].
  simpl. rewrite IH, orb_false_r.
  destruct (N.eqb_spec c d); [congruence | reflexivity].
Qed.

Lemma digits_of_uint u :
  Forall (fun d => d <> 70%N) (lit (NilEmpty.string_of_uint u)).
Proof.
  induction u; simpl; try constructor; try discriminate; assumption.
Qed.

Lemma api_error_not_fetch n :
  includes (lit "Failed to fetch") (lit "API error: " ++ lit (NilEmpty.string_of_uint n))
  = false.
Proof.
  apply (@no_first_char (lit "ailed to fetch") 70%N).
  apply Forall_app. split; [|apply digits_of_uint].
  repeat (constructor; [discriminate|]). constructor.
Qed.

Section RemoteFacts.

Variable fetch : request -> fetch_result.
Variable now : Z.
Variable ToString_other : value -> jsstring.
Variable type_error_message : jsstring.

Lemma callOpenAI_any prompt apiKey w :
  Background.callOpenAI fetch ToString_other type_error_message prompt apiKey w =
  (try_catch
    (match fetch (summary_request
                    (Background.ToString ToString_other apiKey) prompt) with
     | Rejected e => Throw e
     | Resolved response =>
       if negb (ok response) then
         let errorData :=
           match json response with
           | Normal d => d
           | Throw _ => VObject []
           end in
         if (status response =? 401)%N then
           Throw (Err (lit "Invalid API key. Please check your OpenAI API key."))
         else if (status response =? 429)%N then
           Throw (Err (lit "Rate limit exceeded. Please try again later."))
         else if (status response =? 500)%N then
           Throw (Err (lit "OpenAI service error. Please try again later."))
         else
           err <- get errorData (lit "error") ;;
           message <- get_optional err (lit "message") ;;
           Throw (Err (if truthy message
                       then Background.ToString ToString_other message
                       else lit "API error: " ++ Background.decimal (status response)))
       else
         data <- json response ;; Background.parseApiResponse data
     end)
    (fun error =>
       if includes (lit "Failed to fetch")
            (Background.message_of type_error_message error)
       then Throw (Err (lit "Network error. Please check your internet connection."))
       else Throw error),
   World (local_storage w)
     (summary_request (Background.ToString ToString_other apiKey) prompt
      :: sent w)).
Proof.
  unfold Background.callOpenAI, io_try, io_bind, Background.send, io_throw, io_lift.
  fold (summary_request (Background.ToString ToString_other apiKey) prompt).
  destruct (fetch _) as [e|r].
  - simpl. destruct (includes _ _); reflexivity.
  - destruct (negb (ok r)).
    + destruct (status r =? 401)%N; [reflexivity|].
      destruct (status r =? 429)%N; [reflexivity|].
      destruct (status r =? 500)%N; [reflexivity|].
      cbv zeta.
      match goal with
      | |- match ?c with Normal _ => _ | Throw _ => _ end = _ =>
        destruct c as [a|e]
      end; simpl; [reflexivity | destruct (includes _ _); reflexivity].
    + match goal with
      | |- match ?c with Normal _ => _ | Throw _ => _ end = _ =>
        destruct c as [a|e]
      end; simpl; [reflexivity | destruct (includes _ _); reflexivity].
Qed.

(** X2 (callOpenAI, the request).  Whatever the transport answers, the call
    sends exactly one request and leaves [chrome.storage.local] alone.  The
    request goes by POST to the chat-completions endpoint with the model
    gpt-3.5-turbo, at most 150 tokens and temperature 0.7, the prompt as user
    content and the credential after "Bearer " as authorization. *)
Theorem callOpenAI_one_request prompt apiKey w :
  let w' := snd (Background.callOpenAI fetch ToString_other type_error_message
                   prompt apiKey w) in
  local_storage w' = local_storage w /\
  exists req,
    sent w' = req :: sent w /\
    endpoint req = lit "https://api.openai.com/v1/chat/completions" /\
    method req = lit "POST" /\
    content_type req = lit "application/json" /\
    authorization req =
      lit "Bearer " ++ Background.ToString ToString_other apiKey /\
    model req = lit "gpt-3.5-turbo" /\
    user_content req = prompt /\
    max_tokens req = 150%Z /\
    Qeq (temperature req) (7 # 10).
Proof.
  rewrite callOpenAI_any. cbn [snd local_storage sent].
  split; [reflexivity|]. eexists. split; [reflexivity|].
  repeat split; reflexivity.
Qed.

(** X3 (callOpenAI, the status codes).  A response that is not ok and has
    status 401, 429 or 500 makes the call throw the fixed invalid-key,
    rate-limit or service-error message, whatever its body. *)
Theorem callOpenAI_status_errors prompt apiKey w resp :
  fetch (summary_request (Background.ToString ToString_other apiKey) prompt)
    = Resolved resp ->
  ok resp = false ->
  let thrown := fst (Background.callOpenAI fetch ToString_other
                       type_error_message prompt apiKey w) in
  (status resp = 401%N ->
     thrown = Throw (Err (lit "Invalid API key. Please check your OpenAI API key."))) /\
  (status resp = 429%N ->
     thrown = Throw (Err (lit "Rate limit exceeded. Please try again later."))) /\
  (status resp = 500%N ->
     thrown = Throw (Err (lit "OpenAI service error. Please try again later."))).
Proof.
  intros Hf Hok. rewrite callOpenAI_any, Hf, Hok. cbn [fst negb].
  repeat split; intros ->; reflexivity.
Qed.

(** X4 (callOpenAI, other failures).  A response that is not ok, with another
    status and a body that cannot be read as JSON, makes the call throw
    "API error: " followed by the status in decimal. *)
Theorem callOpenAI_api_error prompt apiKey w resp e :
  fetch (summary_request (Background.ToString ToString_other apiKey) prompt)
    = Resolved resp ->
  ok resp = false ->
  status resp <> 401%N -> status resp <> 429%N -> status resp <> 500%N ->
  json resp = Throw e ->
  fst (Background.callOpenAI fetch ToString_other type_error_message
         prompt apiKey w) =
  Throw (Err (lit "API error: " ++ Background.decimal (status resp))).
Proof.
  intros Hf Hok H1 H2 H3 Hj. rewrite callOpenAI_any, Hf, Hok, Hj. cbn [fst negb].
  apply N.eqb_neq in H1, H2, H3. rewrite H1, H2, H3.
  cbv zeta. cbn [get get_field cbind get_optional truthy try_catch
                 Background.message_of].
  unfold Background.decimal. now rewrite api_error_not_fetch.
Qed.

(** X5 (callOpenAI, the network).  A rejected [fetch] whose message contains
    "Failed to fetch" is reported as the fixed network error; and no error
    the call throws has a message that contains "Failed to fetch". *)
Theorem callOpenAI_network_error prompt apiKey w :
  (forall m,
     fetch (summary_request (Background.ToString ToString_other apiKey) prompt)
       = Rejected (Err m) ->
     contains (lit "Failed to fetch") m ->
     fst (Background.callOpenAI fetch ToString_other type_error_message
            prompt apiKey w) =
     Throw (Err (lit "Network error. Please check your internet connection."))) /\
  (forall e,
     fst (Background.callOpenAI fetch ToString_other type_error_message
            prompt apiKey w) = Throw e ->
     ~ contains (lit "Failed to fetch")
         (Background.message_of type_error_message e)).
Proof.
  rewrite callOpenAI_any. cbn [fst]. split.
  - intros m -> H. apply includes_spec in H. simpl. now rewrite H.
  - intros e. match goal with |- try_catch ?c _ = _ -> _ => destruct c as [a|e0] end;
      [discriminate|]. simpl.
    destruct (includes _ _) eqn:E; intros H; inversion H; subst.
    + apply not_includes. reflexivity.
    + now apply not_includes.
Qed.

End RemoteFacts.

(** ** The orchestrator, its effects *)

Section EffectFacts.

Variable fetch : request -> fetch_result.
Variable now : Z.
Variable ToString_other : value -> jsstring.
Variable type_error_message : jsstring.

Lemma handle_valid s k w :
  has_prefix (lit "sk-") k ->
  valid (Background.validateText (VString s)) = true ->
  Background.handleSummarization fetch now ToString_other type_error_message
    (VString s) (VString k) w =
  match Background.callOpenAI fetch ToString_other type_error_message
          (Background.createSummaryPrompt (sanitize_spec s)) (VString k) w with
  | (Normal summary, w1) =>
    (Normal summary, storage_set (last_summary_items summary now) w1)
  | (Throw e, w1) => (Throw e, w1)
  end.
Proof.
  intros Hp Hv.
  rewrite (handle_accepted fetch now ToString_other type_error_message
             (VString s) w Hp), Hv.
  cbn [negb]. now rewrite background_sanitize_spec.
Qed.

(** X6 (handleSummarization, its effects).  A run sends at most one request.
    A run that throws, for whatever reason, leaves [chrome.storage.local] as
    it was; a run that returns changes [last_summary] and
    [last_summary_time] only. *)
Theorem handleSummarization_effects text apiKey w :
  let run := Background.handleSummarization fetch now ToString_other
               type_error_message text apiKey w in
  (sent (snd run) = sent w \/ exists req, sent (snd run) = req :: sent w) /\
  (forall e, fst run = Throw e -> local_storage (snd run) = local_storage w) /\
  (forall key,
     key <> lit "last_summary" -> key <> lit "last_summary_time" ->
     get_field key (local_storage (snd run)) = get_field key (local_storage w)).
Proof.
  cbv zeta.
  destruct (credential_cases apiKey) as [Hr | [(k & -> & Hp) | [Ht Hn]]].
  - rewrite (handle_refused fetch now ToString_other type_error_message text w Hr).
    cbn [fst snd]. auto.
  - rewrite (handle_accepted fetch now ToString_other type_error_message text w Hp).
    destruct (valid (Background.validateText text)) eqn:Hv; cbn [negb];
      [|cbn [fst snd]; auto].
    destruct (valid_is_string text Hv) as [s ->].
    rewrite background_sanitize_spec, callOpenAI_unfold.
    match goal with |- context [try_catch ?c ?h] => destruct (try_catch c h) as [a|e] end;
      cbn [fst snd].
    + destruct (stored_last_summary a now
                  (World (local_storage w)
                     (summary_request k
                        (Background.createSummaryPrompt (sanitize_spec s))
                      :: sent w))) as (Hs & _ & _ & H3).
      cbv zeta in Hs, H3. cbn [sent local_storage] in Hs, H3.
      split; [right; eexists; exact Hs|]. split; [discriminate | exact H3].
    + cbn [sent local_storage]. split; [right; now eexists | auto].
  - rewrite (handle_not_string fetch now ToString_other type_error_message
               text w Ht Hn).
    cbn [fst snd]. auto.
Qed.

(** X7 (handleSummarization, a credential that is no string).  A truthy
    credential that is not a string has no [startsWith]: the run throws the
    engine's [TypeError], not the invalid-key error, and nothing else
    happens. *)
Theorem handleSummarization_type_error text apiKey w :
  truthy apiKey = true -> (forall k, apiKey <> VString k) ->
  Background.handleSummarization fetch now ToString_other type_error_message
    text apiKey w = (Throw TypeErr, w).
Proof. apply handle_not_string. Qed.

(** X8 (the popup's checks and the orchestrator's).  A credential that
    [validateApiKey] accepts and a text that the shared [validateText]
    accepts pass both tests of the orchestrator: the run reaches the remote
    call, so exactly one request is sent, with that credential. *)
Theorem popup_checks_suffice text apiKey w :
  Utils.validateApiKey apiKey = true ->
  valid (Utils.validateText text) = true ->
  exists k s,
    apiKey = VString k /\ text = VString s /\
    sent (snd (Background.handleSummarization fetch now ToString_other
                 type_error_message text apiKey w)) =
    summary_request k (Background.createSummaryPrompt (sanitize_spec s))
    :: sent w.
Proof.
  intros Hk Hv.
  destruct apiKey as [| |b|n|k|l|o|m]; try discriminate.
  destruct k as [|c k]; [discriminate|].
  unfold Utils.validateApiKey in Hk. cbn [truthy length Nat.eqb negb] in Hk.
  apply andb_true_iff in Hk. destruct Hk as [Hp _]. apply startsWith_spec in Hp.
  destruct text as [| |b|n|s|l|o|m]; try discriminate.
  destruct s as [|d s]; [discriminate|].
  rewrite (proj2 (validateText_string (s := d :: s) ltac:(discriminate))) in Hv.
  exists (c :: k), (d :: s). split; [reflexivity|]. split; [reflexivity|].
  rewrite (@handle_valid _ _ w Hp Hv), callOpenAI_unfold.
  match goal with |- context [try_catch ?c ?h] => destruct (try_catch c h) as [a|e] end;
    reflexivity.
Qed.

(** X9 (the message listener).  A request with another action than
    ['summarizeText'] gets no answer and changes nothing.  A summarisation
    request is answered with the summary when the orchestrator returns, and
    otherwise with the message of the thrown error as it is, the generic
    text standing in for an empty message; the world is the orchestrator's. *)
Theorem onMessage_reply action text apiKey w :
  let run := Background.handleSummarization fetch now ToString_other
               type_error_message text apiKey w in
  let answer := Background.onMessage fetch now ToString_other
                  type_error_message action text apiKey w in
  (action <> lit "summarizeText" -> answer = (None, w)) /\
  (action = lit "summarizeText" ->
     snd answer = snd run /\
     (forall summary, fst run = Normal summary ->
        fst answer = Some (Background.Success summary)) /\
     (forall e, fst run = Throw e ->
        Background.message_of type_error_message e <> [] ->
        fst answer =
        Some (Background.Failure (Background.message_of type_error_message e))) /\
     (forall e, fst run = Throw e ->
        Background.message_of type_error_message e = [] ->
        fst answer =
        Some (Background.Failure
                (lit "An error occurred while generating the summary.")))).
Proof.
  cbv zeta. unfold Background.onMessage. split.
  - intros H. now rewrite (string_eqb_neq H).
  - intros ->. rewrite string_eqb_refl.
    destruct (Background.handleSummarization _ _ _ _ _ _ _) as [[a|e] w'];
      cbn [fst snd].
    + split; [reflexivity|]. split; [|split]; intros x H; inversion H; reflexivity.
    + split; [reflexivity|]. split; [|split]; intros x H; inversion H; subst.
      * unfold Background.thrown_value, Background.formatErrorMessage.
        destruct (Background.message_of type_error_message x); [congruence|].
        reflexivity.
      * intros Hm. unfold Background.thrown_value, Background.formatErrorMessage.
        now rewrite Hm.
Qed.

End EffectFacts.

(** ** Truncation *)

Lemma truncateText_long text m :
  text <> [] -> (m < str_length text)%Z ->
  Utils.truncateText text (Some m) = firstn (Z.to_nat m) text ++ lit "..." /\
  length (firstn (Z.to_nat m) text) = Z.to_nat m.
Proof.
  intros Hne Hlt. unfold Utils.truncateText, substring0.
  destruct text as [|c text]; [congruence|].
  cbn [truthy length Nat.eqb negb orb].
  apply Z.leb_gt in Hlt. rewrite Hlt. split; [reflexivity|].
  apply Z.leb_gt in Hlt. apply firstn_length_le. unfold str_length in Hlt. lia.
Qed.



(** X11 (truncateText, twice).  Truncating an already truncated text to the
    same bound changes nothing, for every text and every bound. *)
Theorem truncateText_idempotent (text : jsstring) (m : option Z) :
  Utils.truncateText (Utils.truncateText text m) m = Utils.truncateText text m.
Proof.
  assert (H : forall b, Utils.truncateText (Utils.truncateText text (Some b)) (Some b)
                        = Utils.truncateText text (Some b)).
  { intros b. destruct text as [|c text]; [reflexivity|].
    destruct (Z.leb_spec (str_length (c :: text)) b) as [Hle | Hlt].
    - assert (E : Utils.truncateText (c :: text) (Some b) = c :: text).
      { unfold Utils.truncateText. apply Z.leb_le in Hle.
        now rewrite Hle, orb_true_r. }
      now rewrite !E.
    - destruct (@truncateText_long (c :: text) b ltac:(discriminate) Hlt)
        as [E Hlen].
      rewrite E.
      assert (Hne : firstn (Z.to_nat b) (c :: text) ++ lit "..." <> []).
      { intros H. apply (f_equal (@length _)) in H.
        rewrite length_app in H. simpl in H. lia. }
      assert (Hlt' : (b < str_length (firstn (Z.to_nat b) (c :: text) ++ lit "..."))%Z).
      { unfold str_length. rewrite length_app, Hlen. simpl. lia. }
      destruct (truncateText_long Hne Hlt') as [E' _]. rewrite E'.
      rewrite firstn_app, Hlen, Nat.sub_diag, firstn_firstn, Nat.min_id.
      simpl. now rewrite app_nil_r. }
  destruct m as [b|]; [apply H | apply (H 100%Z)].
Qed.

(** ** The storage helpers *)

Section StorageFacts.

Variable lastError : storage_op -> option value.

(** X12 (saveToStorage, getFromStorage, removeFromStorage).  When the browser
    fails none of the calls, a saved string is what is read back under its
    key, a removed key reads as [undefined], and saving under one key leaves
    what is read under another.  A call the browser fails rejects with
    [chrome.runtime.lastError] and leaves the browser as it was. *)
Theorem storage_round_trip (key : jsstring) (s : jsstring) (b : browser) :
  (lastError (OpSet key) = None -> lastError (OpGet key) = None ->
     fst (Utils.getFromStorage lastError key
            (snd (Utils.saveToStorage lastError key (VString s) b))) =
     Done (VString s)) /\
  (lastError (OpRemove key) = None -> lastError (OpGet key) = None ->
     fst (Utils.getFromStorage lastError key
            (snd (Utils.removeFromStorage lastError key b))) =
     Done VUndefined) /\
  (forall other, other <> key -> lastError (OpSet key) = None ->
     fst (Utils.getFromStorage lastError other
            (snd (Utils.saveToStorage lastError key (VString s) b))) =
     fst (Utils.getFromStorage lastError other b)) /\
  (forall e, lastError (OpSet key) = Some e ->
     Utils.saveToStorage lastError key (VString s) b = (Raised e, b)) /\
  (forall e, lastError (OpGet key) = Some e ->
     Utils.getFromStorage lastError key b = (Raised e, b)) /\
  (forall e, lastError (OpRemove key) = Some e ->
     Utils.removeFromStorage lastError key b = (Raised e, b)).
Proof.
  unfold Utils.getFromStorage, Utils.saveToStorage, Utils.removeFromStorage.
  split; [|split; [|split; [|split; [|split]]]].
  - intros -> ->. cbn [fst snd sync_storage].
    unfold set_field. cbn [get_field]. now rewrite string_eqb_refl.
  - intros -> ->. cbn [fst snd sync_storage].
    assert (H : get_field key (remove_field key (sync_storage b)) = None).
    { induction (sync_storage b) as [|[k v] fields IH]; [reflexivity|]. simpl.
      destruct (string_eqb k key) eqn:E; [exact IH|]. simpl. now rewrite E. }
    now rewrite H.
  - intros other Hne ->. cbn [snd sync_storage].
    destruct (lastError (OpGet other)); [reflexivity|]. cbn [fst].
    now rewrite get_field_set_other.
  - now intros e ->.
  - now intros e ->.
  - now intros e ->.
Qed.

End StorageFacts.

(** ** The page script *)

Lemma trim_twice s : trim (trim s) = trim s.
Proof. apply trimmed_trim, trim_trimmed. Qed.

Lemma capture_blank selection st :
  trim selection = [] -> Content.captureTextSelection selection st = st.
Proof. intros H. unfold Content.captureTextSelection. now rewrite H. Qed.

Lemma capture_text selection st c t :
  trim selection = c :: t ->
  Content.captureTextSelection selection st =
  Content.Script (c :: t)
    (storage_set [(lit "selected_text", VString (c :: t))] (Content.store st)).
Proof. intros H. unfold Content.captureTextSelection. now rewrite H. Qed.

Lemma capture_all_sent selections : forall st,
  sent (Content.store (capture_all selections st)) = sent (Content.store st).
Proof.
  induction selections as [|sel rest IH]; intros st; [reflexivity|].
  unfold capture_all in *. cbn [fold_left]. rewrite IH.
  destruct (trim sel) as [|c t] eqn:E.
  - now rewrite (@capture_blank sel st E).
  - now rewrite (@capture_text sel st c t E).
Qed.

(** X13 (captureTextSelection).  After any series of selections the script
    holds the last selection that was not blank, trimmed, and
    [chrome.storage.local] holds the same string under [selected_text]; it
    is never empty.  Blank selections change nothing, and capturing never
    sends a request. *)
Theorem capture_all_last (selections : list jsstring) (st : Content.script) :
  (forall t, last_nonblank selections = Some t ->
     Content.selectedText (capture_all selections st) = t /\
     get_field (lit "selected_text")
       (local_storage (Content.store (capture_all selections st))) =
       Some (VString t) /\
     t <> [] /\ trim t = t) /\
  (last_nonblank selections = None -> capture_all selections st = st) /\
  sent (Content.store (capture_all selections st)) = sent (Content.store st).
Proof.
  split; [|split; [|apply capture_all_sent]].
  - revert st. induction selections as [|sel rest IH]; intros st t H;
      [discriminate|].
    unfold capture_all in *. cbn [fold_left]. cbn [last_nonblank] in H.
    destruct (last_nonblank rest) as [t'|] eqn:E.
    + inversion H. subst t'. now apply IH.
    + destruct (trim sel) as [|c u] eqn:Et; [discriminate|].
      inversion H. subst t. clear H IH.
      assert (Hrest : forall st', fold_left
                (fun st0 selection => Content.captureTextSelection selection st0)
                rest st' = st').
      { clear -E. induction rest as [|s2 rest IH]; intros st'; [reflexivity|].
        cbn [last_nonblank] in E.
        destruct (last_nonblank rest); [discriminate|].
        destruct (trim s2) eqn:E2; [|discriminate].
        cbn [fold_left]. rewrite (@capture_blank s2 st' E2). now apply IH. }
      rewrite Hrest, (@capture_text sel st c u Et). cbn [Content.selectedText Content.store].
      split; [reflexivity|]. split; [reflexivity|]. split; [discriminate|].
      rewrite <- Et. apply trim_twice.
  - revert st. induction selections as [|sel rest IH]; intros st H;
      [reflexivity|].
    unfold capture_all in *. cbn [fold_left]. cbn [last_nonblank] in H.
    destruct (last_nonblank rest); [discriminate|].
    destruct (trim sel) eqn:E; [|discriminate].
    rewrite (@capture_blank sel st E). now apply IH.
Qed.

Lemma capture_all_last_witness :
  Content.selectedText
    (capture_all [lit "  first "; lit " second  "; lit "   "]
       (Content.Script [] Scenario.fresh)) = lit "second".
Proof.
  destruct (capture_all_last [lit "  first "; lit " second  "; lit "   "]
              (Content.Script [] Scenario.fresh)) as (H & _).
  exact (proj1 (H (lit "second") eq_refl)).
Defined.

Lemma last_nonblank_snoc selections live :
  last_nonblank (selections ++ [live]) =
  match trim live with
  | [] => last_nonblank selections
  | c :: t => Some (c :: t)
  end.
Proof.
  induction selections as [|sel rest IH]; simpl.
  - now destruct (trim live).
  - rewrite IH. destruct (trim live); [reflexivity|reflexivity].
Qed.

(** X14 (the listener of the page script).  Asked for the selected text
    after a series of selections, the script answers with the last
    selection that is not blank, the one live on the page counting as the
    latest, trimmed; when there was none it answers with what it held at the
    start.  Other requests get no answer. *)
Theorem content_onMessage_reply (selections : list jsstring)
  (live : jsstring) (st : Content.script) (action : jsstring) :
  (action = lit "getSelectedText" ->
     Content.onMessage action live (capture_all selections st) =
     Some (match last_nonblank (selections ++ [live]) with
           | Some t => t
           | None => Content.selectedText st
           end)) /\
  (action <> lit "getSelectedText" ->
     Content.onMessage action live (capture_all selections st) = None).
Proof.
  unfold Content.onMessage. split.
  - intros ->. rewrite string_eqb_refl, last_nonblank_snoc. f_equal.
    destruct (trim live) as [|c t]; [|reflexivity]. cbn [truthy length Nat.eqb negb].
    destruct (capture_all_last selections st) as (Hsome & Hnone & _).
    destruct (last_nonblank selections) as [t|].
    + exact (proj1 (Hsome t eq_refl)).
    + now rewrite Hnone.
  - intros H. now rewrite (string_eqb_neq H).
Qed.

Lemma content_onMessage_reply_witness :
  Content.onMessage (lit "getSelectedText") (lit "  ")
    (capture_all [lit " kept "] (Content.Script [] Scenario.fresh)) =
  Some (lit "kept").
Proof.
  exact (proj1 (content_onMessage_reply [lit " kept "] (lit "  ")
                  (Content.Script [] Scenario.fresh) (lit "getSelectedText"))
           eq_refl).
Defined.

(** ** The popup *)

Section PopupFacts.

Variable fetch : request -> fetch_result.
Variable now : Z.
Variable ToString_other : value -> jsstring.
Variable type_error_message : jsstring.
Variable lastError : storage_op -> option value.
Variable port_error : option jsstring.

Lemma attempt_unfold apiKey b :
  Popup.attemptSummarization fetch now ToString_other type_error_message
    lastError port_error apiKey b =
  match lastError (OpGet (lit "selected_text")) with
  | Some e => after_loading (Popup.showError (Utils.formatErrorMessage e)) b
  | None =>
    match stored_selection b with
    | VString s =>
      if (str_length (trim s) =? 0)%Z then after_loading Popup.showInstruction b
      else if negb (valid (Utils.validateText (VString s))) then
        after_loading
          (Popup.showError (match error (Utils.validateText (VString s)) with
                            | Some m => m
                            | None => lit "null"
                            end)) b
      else
        Popup.sendMessage fetch now ToString_other type_error_message port_error
          (VString s) apiKey
          (Browser (sync_storage b) (Popup.showLoading (page b)) (extension b))
    | v =>
      if truthy v then
        after_loading
          (Popup.showError
             (Utils.formatErrorMessage (VError type_error_message))) b
      else after_loading Popup.showInstruction b
    end
  end.
Proof.
  unfold Popup.attemptSummarization, task_try, task_bind, on_page,
    Utils.getFromStorage, Popup.lift, after_loading, stored_selection.
  cbn [sync_storage page extension].
  destruct (lastError (OpGet (lit "selected_text"))) as [e|]; [reflexivity|].
  destruct (get_field (lit "selected_text") (sync_storage b)) as [v|];
    [|reflexivity].
  destruct v as [| |[|]|[|q]|[|c s]|l|o|m]; try reflexivity.
  - cbn [truthy number_is_zero]. destruct (Qeq_bool q 0); reflexivity.
  - cbn [truthy length Nat.eqb negb call_trim cbind].
    destruct (str_length (trim (c :: s)) =? 0)%Z; [reflexivity|].
    destruct (negb (valid (Utils.validateText (VString (c :: s)))));
      [reflexivity|].
    unfold Popup.sendMessage, on_page. cbn [sync_storage page extension].
    destruct port_error; [reflexivity|].
    destruct (Background.onMessage _ _ _ _ _ _ _ _) as [[[x|x]|] w']; reflexivity.
Qed.

Lemma send_unfold text apiKey b :
  Popup.sendMessage fetch now ToString_other type_error_message port_error
    text apiKey b =
  match port_error with
  | Some m =>
    (Done tt,
     Browser (sync_storage b)
       (Popup.showError (lit "Extension error: " ++ m) (page b)) (extension b))
  | None =>
    let run := Background.handleSummarization fetch now ToString_other
                 type_error_message text apiKey (extension b) in
    (Done tt,
     Browser (sync_storage b)
       (match fst run with
        | Normal summary => Popup.showSummary summary (page b)
        | Throw e =>
          Popup.showError
            (match Background.message_of type_error_message e with
             | [] => lit "An error occurred while generating the summary."
             | c :: m => c :: m
             end) (page b)
        end)
       (snd run))
  end.
Proof.
  unfold Popup.sendMessage, on_page, Background.onMessage.
  destruct port_error; [reflexivity|].
  change (string_eqb (lit "summarizeText") (lit "summarizeText")) with true.
  cbv iota zeta.
  destruct (Background.handleSummarization _ _ _ _ _ _ _) as [[a|e] w'];
    cbn [fst snd]; [reflexivity|].
  unfold Background.thrown_value, Background.formatErrorMessage.
  destruct (Background.message_of type_error_message e); reflexivity.
Qed.

Lemma blank_length s : (str_length (trim s) =? 0)%Z = true <-> trim s = [].
Proof.
  rewrite Z.eqb_eq. unfold str_length.
  destruct (trim s); simpl; split; intros H; try reflexivity; discriminate.
Qed.

(** What every attempt keeps and where it ends. *)
Lemma attempt_settles apiKey b :
  let r := Popup.attemptSummarization fetch now ToString_other
             type_error_message lastError port_error apiKey b in
  fst r = Done tt /\
  sync_storage (snd r) = sync_storage b /\
  apiKeySection (page (snd r)) = apiKeySection (page b) /\
  summarySection (page (snd r)) = summarySection (page b) /\
  apiKeyInput (page (snd r)) = apiKeyInput (page b) /\
  exists p, p <> LoadingPanel /\ only_panel p (page (snd r)).
Proof.
  cbv zeta. rewrite attempt_unfold. unfold after_loading.
  assert (Herr : forall m u, exists p, p <> LoadingPanel /\
                   only_panel p (Popup.showError m (Popup.showLoading u))).
  { intros m u. exists ErrorPanel. split; [discriminate | repeat split]. }
  assert (Hins : forall u, exists p, p <> LoadingPanel /\
                   only_panel p (Popup.showInstruction (Popup.showLoading u))).
  { intros u. exists InstructionPanel. split; [discriminate | repeat split]. }
  destruct (lastError (OpGet (lit "selected_text"))) as [e|];
    [cbn [fst snd sync_storage page]; repeat (split; [reflexivity|]); apply Herr|].
  destruct (stored_selection b) as [| |[|]|[|q]|s|l|o|m];
    try (cbn [truthy]; cbn [fst snd sync_storage page];
         repeat (split; [reflexivity|]); (apply Herr || apply Hins)).
  - cbn [truthy number_is_zero]. destruct (Qeq_bool q 0);
      cbn [negb fst snd sync_storage page];
      repeat (split; [reflexivity|]); (apply Herr || apply Hins).
  - destruct (str_length (trim s) =? 0)%Z;
      [cbn [fst snd sync_storage page]; repeat (split; [reflexivity|]); apply Hins|].
    destruct (negb (valid (Utils.validateText (VString s))));
      [cbn [fst snd sync_storage page]; repeat (split; [reflexivity|]); apply Herr|].
    rewrite send_unfold. cbn [sync_storage page extension].
    destruct port_error;
      [cbn [fst snd sync_storage page]; repeat (split; [reflexivity|]); apply Herr|].
    cbv zeta. cbn [fst snd sync_storage page].
    destruct (fst (Background.handleSummarization _ _ _ _ _ _ _)) as [a|e].
    + repeat (split; [reflexivity|]). exists SummaryPanel.
      split; [discriminate | repeat split].
    + repeat (split; [reflexivity|]). exists ErrorPanel.
      split; [discriminate | repeat split].
Qed.


(** X16 (attemptSummarization without a usable text).  When nothing is
    stored under [selected_text] in [chrome.storage.sync], or what is stored
    is falsy or a blank string, the attempt ends on the instruction panel
    with the status "Ready" and the service worker is not contacted.  When a
    string is stored whose trimmed length is below 10 or above 10000, the
    attempt ends on the error panel with the too-short or too-long message,
    and the service worker is not contacted either. *)
Theorem attemptSummarization_without_text apiKey b :
  lastError (OpGet (lit "selected_text")) = None ->
  let b' := snd (Popup.attemptSummarization fetch now ToString_other
                   type_error_message lastError port_error apiKey b) in
  (truthy (stored_selection b) = false \/
   (exists s, stored_selection b = VString s /\ trim s = []) ->
     only_panel InstructionPanel (page b') /\
     statusText (page b') = lit "Ready" /\
     extension b' = extension b) /\
  (forall s, stored_selection b = VString s ->
     (0 < str_length (trim s) < 10)%Z ->
     shows_error
       (lit "Selected text is too short. Please select at least 10 characters.")
       (page b') /\
     extension b' = extension b) /\
  (forall s, stored_selection b = VString s ->
     (10000 < str_length (trim s))%Z ->
     shows_error
       (lit "Selected text is too long. Please select less than 10,000 characters.")
       (page b') /\
     extension b' = extension b).
Proof.
  intros Hget. cbv zeta. rewrite attempt_unfold, Hget. unfold after_loading.
  split; [|split].
  - intros [Hf | (s & Hs & Ht)].
    + destruct (stored_selection b) as [| |[|]|[|q]|[|c s]|l|o|m];
        try discriminate Hf;
        try (cbn [truthy] in Hf |- *; rewrite Hf);
        cbn [snd page extension]; repeat split.
    + rewrite Hs. apply blank_length in Ht. rewrite Ht.
      cbn [snd page extension]. repeat split.
  - intros s Hs [Hlo Hhi]. rewrite Hs.
    assert (Hne : s <> []).
    { intros ->. change (trim []) with (@nil code_unit) in Hlo.
      unfold str_length in Hlo. simpl in Hlo. lia. }
    destruct (str_length (trim s) =? 0)%Z eqn:E; [apply Z.eqb_eq in E; lia|].
    destruct (validateText_string Hne) as [Hb Hu]. rewrite Hu, Hb.
    apply Z.ltb_lt in Hhi. rewrite Hhi.
    cbn [valid error negb snd page extension]. repeat split.
  - intros s Hs Hlt. rewrite Hs.
    assert (Hne : s <> []).
    { intros ->. change (trim []) with (@nil code_unit) in Hlt.
      unfold str_length in Hlt. simpl in Hlt. lia. }
    destruct (str_length (trim s) =? 0)%Z eqn:E; [apply Z.eqb_eq in E; lia|].
    destruct (validateText_string Hne) as [Hb Hu]. rewrite Hu, Hb.
    destruct (str_length (trim s) <? 10)%Z eqn:E1; [apply Z.ltb_lt in E1; lia|].
    apply Z.ltb_lt in Hlt. rewrite Hlt.
    cbn [valid error negb snd page extension]. repeat split.
Qed.

(** X17 (attemptSummarization, the answer).  With a stored string whose
    trimmed length lies in 10..10000 the popup asks the service worker: the
    world of the worker becomes that of one orchestrator run on the stored
    text; a returned summary is displayed on the summary panel with the
    status "Summary generated", a thrown error on the error panel with its
    message.  When the message cannot be delivered, the error panel shows
    "Extension error: " and the browser's message, and the worker is
    untouched. *)
Theorem attemptSummarization_answer apiKey b s :
  lastError (OpGet (lit "selected_text")) = None ->
  stored_selection b = VString s ->
  (10 <= str_length (trim s) <= 10000)%Z ->
  let b' := snd (Popup.attemptSummarization fetch now ToString_other
                   type_error_message lastError port_error apiKey b) in
  let run := Background.handleSummarization fetch now ToString_other
               type_error_message (VString s) apiKey (extension b) in
  (port_error = None ->
     extension b' = snd run /\
     (forall summary, fst run = Normal summary ->
        only_panel SummaryPanel (page b') /\
        summaryText (page b') = summary /\
        statusText (page b') = lit "Summary generated") /\
     (forall e, fst run = Throw e ->
        Background.message_of type_error_message e <> [] ->
        shows_error (Background.message_of type_error_message e) (page b'))) /\
  (forall m, port_error = Some m ->
     shows_error (lit "Extension error: " ++ m) (page b') /\
     extension b' = extension b).
Proof.
  intros Hget Hs Hlen. cbv zeta. rewrite attempt_unfold, Hget, Hs.
  destruct (str_length (trim s) =? 0)%Z eqn:E; [apply Z.eqb_eq in E; lia|].
  assert (Hv : valid (Utils.validateText (VString s)) = true).
  { assert (Hne : s <> []) by (apply trimmed_length_nonempty; lia).
    rewrite (proj2 (validateText_string Hne)).
    apply valid_iff. now exists s. }
  rewrite Hv. cbn [negb]. rewrite send_unfold. cbn [sync_storage page extension].
  split.
  - intros ->. cbv zeta. cbn [snd page extension]. split; [reflexivity|]. split.
    + intros summary ->. repeat split.
    + intros e -> Hm.
      destruct (Background.message_of type_error_message e); [congruence|].
      repeat split.
  - intros m ->. cbn [snd page extension]. repeat split.
Qed.

End PopupFacts.

Section PopupFlows.

Variable fetch : request -> fetch_result.
Variable now : Z.
Variable ToString_other : value -> jsstring.
Variable type_error_message : jsstring.
Variable lastError : storage_op -> option value.
Variable port_error : option jsstring.

Lemma try_attempt apiKey b (handler : value -> task unit) :
  task_try
    (Popup.attemptSummarization fetch now ToString_other type_error_message
       lastError port_error apiKey) handler b =
  Popup.attemptSummarization fetch now ToString_other type_error_message
    lastError port_error apiKey b.
Proof.
  unfold task_try.
  pose proof (attempt_settles fetch now ToString_other type_error_message
                lastError port_error apiKey b) as (H & _).
  cbv zeta in H.
  destruct (Popup.attemptSummarization _ _ _ _ _ _ _ _) as [[[]|v] b'];
    [reflexivity | discriminate].
Qed.

Lemma check_unfold b :
  Popup.checkApiKey fetch now ToString_other type_error_message lastError
    port_error b =
  match lastError (OpGet Utils.API_KEY) with
  | Some e =>
    (Done tt,
     Browser (sync_storage b) (Popup.showApiKeySection (page b)) (extension b))
  | None =>
    let apiKey := match get_field Utils.API_KEY (sync_storage b) with
                  | Some v => v
                  | None => VUndefined
                  end in
    if truthy apiKey && Utils.validateApiKey apiKey then
      Popup.attemptSummarization fetch now ToString_other type_error_message
        lastError port_error apiKey
        (Browser (sync_storage b) (Popup.showSummarySection (page b))
           (extension b))
    else
      (Done tt,
       Browser (sync_storage b) (Popup.showApiKeySection (page b))
         (extension b))
  end.
Proof.
  unfold Popup.checkApiKey, task_try at 1, task_bind at 1, Utils.getFromStorage.
  destruct (lastError (OpGet Utils.API_KEY)) as [e|]; [reflexivity|].
  cbv zeta.
  destruct (truthy _ && Utils.validateApiKey _); [|reflexivity].
  unfold task_bind, on_page. cbn [sync_storage page extension].
  pose proof (attempt_settles fetch now ToString_other type_error_message
                lastError port_error
                (match get_field Utils.API_KEY (sync_storage b) with
                 | Some v => v
                 | None => VUndefined
                 end)
                (Browser (sync_storage b) (Popup.showSummarySection (page b))
                   (extension b))) as (H & _).
  cbv zeta in H.
  destruct (Popup.attemptSummarization _ _ _ _ _ _ _ _) as [[[]|v] b'];
    [reflexivity | discriminate].
Qed.

Lemma save_unfold b :
  Popup.handleSaveApiKey fetch now ToString_other type_error_message lastError
    port_error b =
  let typed := trim (apiKeyInput (page b)) in
  if negb (Utils.validateApiKey (VString typed)) then
    (Done tt,
     Browser (sync_storage b)
       (Popup.showError
          (lit "Please enter a valid OpenAI API key (starts with "
           ++ [QUOTE] ++ lit "sk-" ++ [QUOTE] ++ lit ")") (page b))
       (extension b))
  else
    match lastError (OpSet Utils.API_KEY) with
    | Some e =>
      (Done tt,
       Browser (sync_storage b)
         (Popup.showError (lit "Failed to save API key. Please try again.")
            (page b))
         (extension b))
    | None =>
      Popup.attemptSummarization fetch now ToString_other type_error_message
        lastError port_error (VString typed)
        (Browser (set_field Utils.API_KEY (VString typed) (sync_storage b))
           (Popup.showSummarySection (Popup.clearInput (page b)))
           (extension b))
    end.
Proof.
  unfold Popup.handleSaveApiKey. cbv zeta.
  destruct (negb (Utils.validateApiKey (VString (trim (apiKeyInput (page b))))));
    [reflexivity|].
  unfold task_try, task_bind at 1, Utils.saveToStorage.
  destruct (lastError (OpSet Utils.API_KEY)) as [e|]; [reflexivity|].
  unfold task_bind, on_page. cbn [sync_storage page extension].
  pose proof (attempt_settles fetch now ToString_other type_error_message
                lastError port_error
                (VString (trim (apiKeyInput (page b))))
                (Browser
                   (set_field Utils.API_KEY
                      (VString (trim (apiKeyInput (page b)))) (sync_storage b))
                   (Popup.showSummarySection (Popup.clearInput (page b)))
                   (extension b))) as (H & _).
  cbv zeta in H.
  destruct (Popup.attemptSummarization _ _ _ _ _ _ _ _) as [[[]|v] b'];
    [reflexivity | discriminate].
Qed.

(** X18 (handleSaveApiKey).  The typed credential is trimmed first.  If
    [validateApiKey] rejects it, nothing is stored and the error panel asks
    for a valid key.  If the browser fails the write, nothing is stored, the
    input keeps its text and the error panel reports the failure.
    Otherwise the trimmed credential is stored under [openai_api_key], the
    input is emptied, the summary section replaces the credential section
    and a summarisation is attempted. *)
Theorem handleSaveApiKey_cases b :
  let typed := trim (apiKeyInput (page b)) in
  let b' := snd (Popup.handleSaveApiKey fetch now ToString_other
                   type_error_message lastError port_error b) in
  (Utils.validateApiKey (VString typed) = false ->
     sync_storage b' = sync_storage b /\ extension b' = extension b /\
     apiKeyInput (page b') = apiKeyInput (page b) /\
     shows_error
       (lit "Please enter a valid OpenAI API key (starts with "
        ++ [QUOTE] ++ lit "sk-" ++ [QUOTE] ++ lit ")") (page b')) /\
  (forall e, Utils.validateApiKey (VString typed) = true ->
     lastError (OpSet Utils.API_KEY) = Some e ->
     sync_storage b' = sync_storage b /\ extension b' = extension b /\
     apiKeyInput (page b') = apiKeyInput (page b) /\
     shows_error (lit "Failed to save API key. Please try again.") (page b')) /\
  (Utils.validateApiKey (VString typed) = true ->
     lastError (OpSet Utils.API_KEY) = None ->
     get_field Utils.API_KEY (sync_storage b') = Some (VString typed) /\
     apiKeyInput (page b') = [] /\
     apiKeySection (page b') = none /\ summarySection (page b') = block /\
     b' = snd (Popup.attemptSummarization fetch now ToString_other
                 type_error_message lastError port_error (VString typed)
                 (Browser
                    (set_field Utils.API_KEY (VString typed) (sync_storage b))
                    (Popup.showSummarySection (Popup.clearInput (page b)))
                    (extension b)))).
Proof.
  cbv zeta. rewrite save_unfold. cbv zeta. split; [|split].
  - intros ->. cbn [negb snd sync_storage page extension]. repeat split.
  - intros e -> ->. cbn [negb snd sync_storage page extension]. repeat split.
  - intros -> ->. cbn [negb].
    destruct (attempt_settles fetch now ToString_other type_error_message
                lastError port_error
                (VString (trim (apiKeyInput (page b))))
                (Browser
                   (set_field Utils.API_KEY
                      (VString (trim (apiKeyInput (page b)))) (sync_storage b))
                   (Popup.showSummarySection (Popup.clearInput (page b)))
                   (extension b))) as (_ & Hs & Ha & Hsum & Hin & _).
    cbv zeta in Hs, Ha, Hsum, Hin. cbn [sync_storage page] in Hs, Ha, Hsum, Hin.
    rewrite Hs, Ha, Hsum, Hin.
    split; [unfold set_field; cbn [get_field]; now rewrite string_eqb_refl|].
    repeat split.
Qed.

(** X19 (checkApiKey).  When the stored credential cannot be read, or is
    missing, or is rejected by [validateApiKey], the credential section is
    shown and nothing else happens.  When a valid credential is stored, the
    summary section is shown and a summarisation is attempted with it. *)
Theorem checkApiKey_cases b :
  let b' := snd (Popup.checkApiKey fetch now ToString_other type_error_message
                   lastError port_error b) in
  let stored := match get_field Utils.API_KEY (sync_storage b) with
                | Some v => v
                | None => VUndefined
                end in
  ((exists e, lastError (OpGet Utils.API_KEY) = Some e) \/
   Utils.validateApiKey stored = false ->
     b' = Browser (sync_storage b) (Popup.showApiKeySection (page b))
            (extension b) /\
     apiKeySection (page b') = block /\ summarySection (page b') = none) /\
  (lastError (OpGet Utils.API_KEY) = None ->
   Utils.validateApiKey stored = true ->
     apiKeySection (page b') = none /\ summarySection (page b') = block /\
     b' = snd (Popup.attemptSummarization fetch now ToString_other
                 type_error_message lastError port_error stored
                 (Browser (sync_storage b) (Popup.showSummarySection (page b))
                    (extension b)))).
Proof.
  cbv zeta. rewrite check_unfold. split.
  - intros [[e ->] | Hv]; [cbn [snd page]; repeat split|].
    destruct (lastError (OpGet Utils.API_KEY)); [cbn [snd page]; repeat split|].
    cbv zeta. rewrite Hv, andb_false_r. cbn [snd page]. repeat split.
  - intros -> Hv. cbv zeta. rewrite Hv, andb_true_r.
    assert (Ht : truthy (match get_field Utils.API_KEY (sync_storage b) with
                         | Some v => v
                         | None => VUndefined
                         end) = true).
    { destruct (get_field Utils.API_KEY (sync_storage b)) as [[| | | |[|c s]| | |]|];
        try discriminate Hv. reflexivity. }
    rewrite Ht.
    destruct (attempt_settles fetch now ToString_other type_error_message
                lastError port_error
                (match get_field Utils.API_KEY (sync_storage b) with
                 | Some v => v
                 | None => VUndefined
                 end)
                (Browser (sync_storage b) (Popup.showSummarySection (page b))
                   (extension b))) as (_ & _ & Ha & Hsum & _).
    cbv zeta in Ha, Hsum. cbn [page] in Ha, Hsum. rewrite Ha, Hsum.
    repeat split.
Qed.

End PopupFlows.

Section SessionFacts.

Variable fetch : request -> fetch_result.
Variable now : Z.
Variable ToString_other : value -> jsstring.
Variable type_error_message : jsstring.
Variable lastError : storage_op -> option value.
Variable port_error : option jsstring.

Lemma get_field_remove_same key fields :
  get_field key (remove_field key fields) = None.
Proof.
  induction fields as [|[k v] fields IH]; [reflexivity|]. simpl.
  destruct (string_eqb k key) eqn:E; [exact IH|]. simpl. now rewrite E.
Qed.

Lemma clear_unfold b :
  Popup.handleClearApiKey lastError b =
  match lastError (OpRemove Utils.API_KEY) with
  | Some e =>
    (Done tt,
     Browser (sync_storage b)
       (Popup.showError (lit "Failed to clear API key. Please try again.")
          (page b))
       (extension b))
  | None =>
    (Done tt,
     Browser (remove_field Utils.API_KEY (sync_storage b))
       (Popup.showApiKeySection (page b)) (extension b))
  end.
Proof.
  unfold Popup.handleClearApiKey, task_try, task_bind, Utils.removeFromStorage,
    on_page.
  destruct (lastError (OpRemove Utils.API_KEY)); reflexivity.
Qed.

(** X20 (the credential across popups).  After [handleClearApiKey] succeeded
    no credential is stored, and the next popup shows the credential
    section without contacting the service worker.  After [handleSaveApiKey]
    stored a credential, the next popup shows the summary section.  A clear
    that the browser fails keeps the stored credential and reports the
    failure on the error panel. *)
Theorem credential_round_trip (b : browser) (loaded : ui) :
  lastError (OpGet Utils.API_KEY) = None ->
  let reopen b1 :=
    snd (Popup.checkApiKey fetch now ToString_other type_error_message
           lastError port_error
           (Browser (sync_storage b1) loaded (extension b1))) in
  (lastError (OpRemove Utils.API_KEY) = None ->
     let b1 := snd (Popup.handleClearApiKey lastError b) in
     get_field Utils.API_KEY (sync_storage b1) = None /\
     reopen b1 =
       Browser (sync_storage b1) (Popup.showApiKeySection loaded) (extension b)) /\
  (Utils.validateApiKey (VString (trim (apiKeyInput (page b)))) = true ->
   lastError (OpSet Utils.API_KEY) = None ->
     let b1 := snd (Popup.handleSaveApiKey fetch now ToString_other
                      type_error_message lastError port_error b) in
     apiKeySection (page (reopen b1)) = none /\
     summarySection (page (reopen b1)) = block) /\
  (forall e, lastError (OpRemove Utils.API_KEY) = Some e ->
     let b1 := snd (Popup.handleClearApiKey lastError b) in
     sync_storage b1 = sync_storage b /\
     shows_error (lit "Failed to clear API key. Please try again.") (page b1)).
Proof.
  intros Hget. cbv zeta. split; [|split].
  - intros Hrm. rewrite clear_unfold, Hrm. cbn [snd sync_storage extension].
    split; [apply get_field_remove_same|].
    rewrite check_unfold, Hget. cbv zeta. cbn [sync_storage page extension].
    now rewrite get_field_remove_same.
  - intros Hv Hset. rewrite save_unfold. cbv zeta. rewrite Hv, Hset. cbn [negb].
    destruct (attempt_settles fetch now ToString_other type_error_message
                lastError port_error
                (VString (trim (apiKeyInput (page b))))
                (Browser
                   (set_field Utils.API_KEY
                      (VString (trim (apiKeyInput (page b)))) (sync_storage b))
                   (Popup.showSummarySection (Popup.clearInput (page b)))
                   (extension b))) as (_ & Hs & _).
    cbv zeta in Hs. cbn [sync_storage] in Hs.
    set (b1 := snd (Popup.attemptSummarization _ _ _ _ _ _ _ _)) in *.
    rewrite check_unfold, Hget. cbv zeta. cbn [sync_storage page extension].
    assert (Hkey : get_field Utils.API_KEY (sync_storage b1) =
                   Some (VString (trim (apiKeyInput (page b))))).
    { rewrite Hs. unfold set_field. cbn [get_field]. now rewrite string_eqb_refl. }
    rewrite Hkey, Hv.
    assert (Ht : truthy (VString (trim (apiKeyInput (page b)))) = true).
    { destruct (trim (apiKeyInput (page b))); [discriminate Hv | reflexivity]. }
    rewrite Ht. cbn [andb].
    destruct (attempt_settles fetch now ToString_other type_error_message
                lastError port_error (VString (trim (apiKeyInput (page b))))
                (Browser (sync_storage b1) (Popup.showSummarySection loaded)
                   (extension b1))) as (_ & _ & Ha & Hsum & _).
    cbv zeta in Ha, Hsum. cbn [page] in Ha, Hsum. now rewrite Ha, Hsum.
  - intros e Hrm. rewrite clear_unfold, Hrm. cbn [snd sync_storage page].
    repeat split.
Qed.

Lemma attempt_no_selection apiKey b :
  get_field (lit "selected_text") (sync_storage b) = None ->
  let b' := snd (Popup.attemptSummarization fetch now ToString_other
                   type_error_message lastError port_error apiKey b) in
  sync_storage b' = sync_storage b /\ extension b' = extension b.
Proof.
  intros H. cbv zeta. rewrite attempt_unfold. unfold stored_selection.
  rewrite H. destruct (lastError (OpGet (lit "selected_text"))); split; reflexivity.
Qed.

Lemma step_keeps s a :
  get_field (lit "selected_text") (sync_storage (browser_of s)) = None ->
  let s' := step fetch now ToString_other type_error_message lastError
              port_error s a in
  get_field (lit "selected_text") (sync_storage (browser_of s')) = None /\
  sent (extension (browser_of s')) = sent (extension (browser_of s)) /\
  get_field (lit "last_summary") (local_storage (extension (browser_of s'))) =
  get_field (lit "last_summary") (local_storage (extension (browser_of s))).
Proof.
  intros H. cbv zeta. destruct a as [selection|loaded|typed|]; cbn [step].
  - cbn [browser_of sync_storage extension]. split; [exact H|].
    unfold Content.captureTextSelection.
    destruct (truthy (VString (trim selection))); cbn [Content.store];
      [|split; reflexivity].
    unfold storage_set. cbn [fold_left fst snd local_storage sent].
    split; [reflexivity|]. apply get_field_set_other. discriminate.
  - cbn [browser_of]. rewrite check_unfold. cbn [sync_storage page extension].
    destruct (lastError (OpGet Utils.API_KEY));
      [cbn [snd sync_storage extension]; auto|].
    cbv zeta. destruct (truthy _ && Utils.validateApiKey _);
      [|cbn [snd sync_storage extension]; auto].
    match goal with
    | |- context [Popup.attemptSummarization _ _ _ _ _ _ ?k ?bb] =>
      destruct (@attempt_no_selection k bb H) as [Hs He]
    end.
    cbv zeta in Hs, He. rewrite Hs, He. cbn [sync_storage extension]. auto.
  - cbn [browser_of]. rewrite save_unfold. cbv zeta.
    cbn [sync_storage page extension type_in apiKeyInput].
    destruct (negb (Utils.validateApiKey (VString (trim typed))));
      [cbn [snd sync_storage extension]; auto|].
    destruct (lastError (OpSet Utils.API_KEY));
      [cbn [snd sync_storage extension]; auto|].
    assert (H' : get_field (lit "selected_text")
                   (set_field Utils.API_KEY (VString (trim typed))
                      (sync_storage (browser_of s))) = None).
    { rewrite get_field_set_other; [exact H | discriminate]. }
    match goal with
    | |- context [Popup.attemptSummarization _ _ _ _ _ _ ?k ?bb] =>
      destruct (@attempt_no_selection k bb H') as [Hs He]
    end.
    cbv zeta in Hs, He. rewrite Hs, He. cbn [sync_storage extension]. auto.
  - cbn [browser_of]. rewrite clear_unfold.
    destruct (lastError (OpRemove Utils.API_KEY));
      cbn [snd sync_storage extension]; [auto|].
    rewrite get_field_remove_other; [auto | discriminate].
Qed.

(** X21 (the selection never reaches the popup).  The page script writes
    the selection to [chrome.storage.local], the popup reads it from
    [chrome.storage.sync], and nothing in the extension writes
    [selected_text] there.  So from a browser whose sync store has no
    [selected_text], whatever the user selects, saves, clears or opens, in
    any order, and whatever the browser and the network do, no request is
    ever sent and no summary is ever stored. *)
Theorem selection_never_reaches_popup (actions : list user_action) (s : session) :
  get_field (lit "selected_text") (sync_storage (browser_of s)) = None ->
  let s' := run_session fetch now ToString_other type_error_message lastError
              port_error actions s in
  sent (extension (browser_of s')) = sent (extension (browser_of s)) /\
  get_field (lit "last_summary") (local_storage (extension (browser_of s'))) =
  get_field (lit "last_summary") (local_storage (extension (browser_of s))) /\
  get_field (lit "selected_text") (sync_storage (browser_of s')) = None.
Proof.
  cbv zeta. revert s. induction actions as [|a actions IH]; intros s H;
    [auto|].
  unfold run_session in *. cbn [fold_left].
  destruct (step_keeps s a H) as (H1 & H2 & H3). cbv zeta in H1, H2, H3.
  destruct (IH _ H1) as (I1 & I2 & I3).
  rewrite I1, I2, H2, H3. auto.
Qed.

End SessionFacts.

(** ** Instances *)

Lemma callOpenAI_status_errors_witness :
  fst (Background.callOpenAI (Cases.refusing 401) Scenario.engine_ToString
         Scenario.engine_type_error Scenario.selection
         (VString Scenario.credential) Scenario.fresh) =
  Throw (Err (lit "Invalid API key. Please check your OpenAI API key.")).
Proof.
  exact (proj1 (callOpenAI_status_errors (Cases.refusing 401)
                  Scenario.engine_ToString Scenario.engine_type_error
                  Scenario.selection (VString Scenario.credential)
                  Scenario.fresh eq_refl eq_refl) eq_refl).
Defined.

Lemma callOpenAI_api_error_witness :
  fst (Background.callOpenAI (Cases.refusing 404) Scenario.engine_ToString
         Scenario.engine_type_error Scenario.selection
         (VString Scenario.credential) Scenario.fresh) =
  Throw (Err (lit "API error: 404")).
Proof.
  assert (H1 : 404%N <> 401%N) by discriminate.
  assert (H2 : 404%N <> 429%N) by discriminate.
  assert (H3 : 404%N <> 500%N) by discriminate.
  exact (callOpenAI_api_error (Cases.refusing 404) Scenario.engine_ToString
           Scenario.engine_type_error Scenario.selection
           (VString Scenario.credential) Scenario.fresh
           (resp := Response false 404
                      (Throw (Err (lit "Unexpected end of JSON input"))))
           (e := Err (lit "Unexpected end of JSON input"))
           eq_refl eq_refl H1 H2 H3 eq_refl).
Defined.

Lemma callOpenAI_network_error_witness :
  fst (Background.callOpenAI Cases.offline Scenario.engine_ToString
         Scenario.engine_type_error Scenario.selection
         (VString Scenario.credential) Scenario.fresh) =
  Throw (Err (lit "Network error. Please check your internet connection.")).
Proof.
  apply (proj1 (callOpenAI_network_error Cases.offline Scenario.engine_ToString
                  Scenario.engine_type_error Scenario.selection
                  (VString Scenario.credential) Scenario.fresh)
           (lit "Failed to fetch")); [reflexivity|].
  now exists [], [].
Defined.

Lemma handleSummarization_effects_witness :
  local_storage
    (snd (Background.handleSummarization Cases.offline Scenario.clock
            Scenario.engine_ToString Scenario.engine_type_error
            (VString Scenario.selection) (VString Scenario.credential)
            Scenario.fresh)) =
  local_storage Scenario.fresh.
Proof.
  destruct (handleSummarization_effects Cases.offline Scenario.clock
              Scenario.engine_ToString Scenario.engine_type_error
              (VString Scenario.selection) (VString Scenario.credential)
              Scenario.fresh) as (_ & H & _).
  apply (H (Err (lit "Network error. Please check your internet connection."))).
  vm_compute. reflexivity.
Defined.

Lemma handleSummarization_type_error_witness :
  Background.handleSummarization (Scenario.answering (lit "A short summary."))
    Scenario.clock Scenario.engine_ToString Scenario.engine_type_error
    (VString Scenario.selection) (VNumber (Num 5)) Scenario.fresh =
  (Throw TypeErr, Scenario.fresh).
Proof.
  apply handleSummarization_type_error; [reflexivity | discriminate].
Defined.

Lemma popup_checks_suffice_witness :
  exists k s,
    VString Scenario.credential = VString k /\
    VString Scenario.selection = VString s /\
    sent (snd (Background.handleSummarization Cases.offline Scenario.clock
                 Scenario.engine_ToString Scenario.engine_type_error
                 (VString Scenario.selection) (VString Scenario.credential)
                 Scenario.fresh)) =
    summary_request k (Background.createSummaryPrompt (sanitize_spec s))
    :: sent Scenario.fresh.
Proof.
  apply popup_checks_suffice; vm_compute; reflexivity.
Defined.

Lemma onMessage_reply_witness :
  Background.onMessage (Scenario.answering (lit "A short summary."))
    Scenario.clock Scenario.engine_ToString Scenario.engine_type_error
    (lit "getSelectedText") (VString Scenario.selection)
    (VString Scenario.credential) Scenario.fresh = (None, Scenario.fresh) /\
  fst (Background.onMessage (Scenario.answering (lit "A short summary."))
         Scenario.clock Scenario.engine_ToString Scenario.engine_type_error
         (lit "summarizeText") (VString (lit "Hi"))
         (VString Scenario.credential) Scenario.fresh) =
  Some (Background.Failure
          (lit "Selected text is too short. Please select at least 10 characters.")).
Proof.
  split.
  - apply (proj1 (onMessage_reply (Scenario.answering (lit "A short summary."))
                    Scenario.clock Scenario.engine_ToString
                    Scenario.engine_type_error (lit "getSelectedText")
                    (VString Scenario.selection) (VString Scenario.credential)
                    Scenario.fresh)).
    discriminate.
  - destruct (proj2 (onMessage_reply (Scenario.answering (lit "A short summary."))
                       Scenario.clock Scenario.engine_ToString
                       Scenario.engine_type_error (lit "summarizeText")
                       (VString (lit "Hi")) (VString Scenario.credential)
                       Scenario.fresh) eq_refl) as (_ & _ & H & _).
    apply (H (Err (lit "Selected text is too short. Please select at least 10 characters.")));
      [reflexivity | discriminate].
Defined.

Lemma storage_round_trip_witness :
  fst (Utils.getFromStorage Cases.reliable Utils.API_KEY
         (snd (Utils.saveToStorage Cases.reliable Utils.API_KEY
                 (VString Scenario.credential)
                 (Cases.browser_with [] [])))) =
  Done (VString Scenario.credential) /\
  Utils.saveToStorage Cases.failing_writes Utils.API_KEY
    (VString Scenario.credential) (Cases.browser_with [] []) =
  (Raised Cases.quota, Cases.browser_with [] []).
Proof.
  split.
  - apply (proj1 (storage_round_trip Cases.reliable Utils.API_KEY
                    Scenario.credential (Cases.browser_with [] [])));
      reflexivity.
  - destruct (storage_round_trip Cases.failing_writes Utils.API_KEY
                Scenario.credential (Cases.browser_with [] []))
      as (_ & _ & _ & H & _).
    apply H. reflexivity.
Defined.

Lemma attemptSummarization_without_text_witness :
  only_panel InstructionPanel
    (page (snd (Popup.attemptSummarization
                  (Scenario.answering (lit "A short summary.")) Scenario.clock
                  Scenario.engine_ToString Scenario.engine_type_error
                  Cases.reliable None (VString Scenario.credential)
                  (Cases.browser_with [] [])))) /\
  shows_error
    (lit "Selected text is too short. Please select at least 10 characters.")
    (page (snd (Popup.attemptSummarization
                  (Scenario.answering (lit "A short summary.")) Scenario.clock
                  Scenario.engine_ToString Scenario.engine_type_error
                  Cases.reliable None (VString Scenario.credential)
                  (Cases.browser_with
                     [(lit "selected_text", VString (lit "Hi"))] [])))).
Proof.
  split.
  - destruct (attemptSummarization_without_text
                (Scenario.answering (lit "A short summary.")) Scenario.clock
                Scenario.engine_ToString Scenario.engine_type_error
                Cases.reliable None (VString Scenario.credential)
                (Cases.browser_with [] []) eq_refl) as (H & _).
    apply H. left. reflexivity.
  - destruct (attemptSummarization_without_text
                (Scenario.answering (lit "A short summary.")) Scenario.clock
                Scenario.engine_ToString Scenario.engine_type_error
                Cases.reliable None (VString Scenario.credential)
                (Cases.browser_with
                   [(lit "selected_text", VString (lit "Hi"))] []) eq_refl)
      as (_ & H & _).
    apply (H (lit "Hi")); [reflexivity | vm_compute; split; reflexivity].
Defined.

Lemma attemptSummarization_answer_witness :
  summaryText
    (page (snd (Popup.attemptSummarization
                  (Scenario.answering (lit "A short summary.")) Scenario.clock
                  Scenario.engine_ToString Scenario.engine_type_error
                  Cases.reliable None (VString Scenario.credential)
                  (Cases.browser_with
                     [(lit "selected_text", VString Scenario.selection)] [])))) =
  lit "A short summary.".
Proof.
  assert (Hlen : (10 <= str_length (trim Scenario.selection) <= 10000)%Z)
    by (vm_compute; split; discriminate).
  destruct (attemptSummarization_answer
              (Scenario.answering (lit "A short summary.")) Scenario.clock
              Scenario.engine_ToString Scenario.engine_type_error
              Cases.reliable None (VString Scenario.credential)
              (Cases.browser_with
                 [(lit "selected_text", VString Scenario.selection)] [])
              eq_refl eq_refl Hlen) as (H & _).
  destruct (H eq_refl) as (_ & Hsum & _).
  assert (Hrun : fst (Background.handleSummarization
                        (Scenario.answering (lit "A short summary."))
                        Scenario.clock Scenario.engine_ToString
                        Scenario.engine_type_error (VString Scenario.selection)
                        (VString Scenario.credential)
                        (extension
                           (Cases.browser_with
                              [(lit "selected_text", VString Scenario.selection)]
                              []))) = Normal (lit "A short summary."))
    by (vm_compute; reflexivity).
  exact (proj1 (proj2 (Hsum (lit "A short summary.") Hrun))).
Defined.

Lemma handleSaveApiKey_cases_witness :
  sync_storage
    (snd (Popup.handleSaveApiKey (Scenario.answering (lit "A short summary."))
            Scenario.clock Scenario.engine_ToString Scenario.engine_type_error
            Cases.reliable None (Cases.browser_with [] (lit " sk-short ")))) = [] /\
  get_field Utils.API_KEY
    (sync_storage
       (snd (Popup.handleSaveApiKey (Scenario.answering (lit "A short summary."))
               Scenario.clock Scenario.engine_ToString Scenario.engine_type_error
               Cases.reliable None
               (Cases.browser_with [] (SPACE :: Scenario.credential))))) =
  Some (VString Scenario.credential) /\
  sync_storage
    (snd (Popup.handleSaveApiKey (Scenario.answering (lit "A short summary."))
            Scenario.clock Scenario.engine_ToString Scenario.engine_type_error
            Cases.failing_writes None
            (Cases.browser_with [] Scenario.credential))) = [].
Proof.
  split; [|split].
  - destruct (handleSaveApiKey_cases
                (Scenario.answering (lit "A short summary.")) Scenario.clock
                Scenario.engine_ToString Scenario.engine_type_error
                Cases.reliable None (Cases.browser_with [] (lit " sk-short ")))
      as (H & _).
    apply H. reflexivity.
  - destruct (handleSaveApiKey_cases
                (Scenario.answering (lit "A short summary.")) Scenario.clock
                Scenario.engine_ToString Scenario.engine_type_error
                Cases.reliable None
                (Cases.browser_with [] (SPACE :: Scenario.credential)))
      as (_ & _ & H).
    apply H; reflexivity.
  - destruct (handleSaveApiKey_cases
                (Scenario.answering (lit "A short summary.")) Scenario.clock
                Scenario.engine_ToString Scenario.engine_type_error
                Cases.failing_writes None
                (Cases.browser_with [] Scenario.credential))
      as (_ & H & _).
    apply (H Cases.quota); reflexivity.
Defined.

Lemma checkApiKey_cases_witness :
  apiKeySection
    (page (snd (Popup.checkApiKey (Scenario.answering (lit "A short summary."))
                  Scenario.clock Scenario.engine_ToString
                  Scenario.engine_type_error Cases.reliable None
                  (Cases.browser_with [] [])))) = block /\
  summarySection
    (page (snd (Popup.checkApiKey (Scenario.answering (lit "A short summary."))
                  Scenario.clock Scenario.engine_ToString
                  Scenario.engine_type_error Cases.reliable None
                  (Cases.browser_with
                     [(Utils.API_KEY, VString Scenario.credential)] [])))) = block.
Proof.
  split.
  - destruct (checkApiKey_cases (Scenario.answering (lit "A short summary."))
                Scenario.clock Scenario.engine_ToString
                Scenario.engine_type_error Cases.reliable None
                (Cases.browser_with [] [])) as (H & _).
    apply H. right. reflexivity.
  - destruct (checkApiKey_cases (Scenario.answering (lit "A short summary."))
                Scenario.clock Scenario.engine_ToString
                Scenario.engine_type_error Cases.reliable None
                (Cases.browser_with
                   [(Utils.API_KEY, VString Scenario.credential)] []))
      as (_ & H).
    apply H; reflexivity.
Defined.

Lemma credential_round_trip_witness :
  get_field Utils.API_KEY
    (sync_storage
       (snd (Popup.handleClearApiKey Cases.reliable
               (Cases.browser_with
                  [(Utils.API_KEY, VString Scenario.credential)] [])))) = None.
Proof.
  destruct (credential_round_trip (Scenario.answering (lit "A short summary."))
              Scenario.clock Scenario.engine_ToString Scenario.engine_type_error
              Cases.reliable None
              (Cases.browser_with
                 [(Utils.API_KEY, VString Scenario.credential)] [])
              Cases.loaded eq_refl) as (H & _).
  exact (proj1 (H eq_refl)).
Defined.

Lemma selection_never_reaches_popup_witness :
  sent (extension (browser_of
    (run_session (Scenario.answering (lit "A short summary.")) Scenario.clock
       Scenario.engine_ToString Scenario.engine_type_error Cases.reliable None
       [Select Scenario.selection; SaveKey Scenario.credential;
        OpenPopup Cases.loaded]
       (Session [] (Cases.browser_with [] []))))) = [].
Proof.
  apply (selection_never_reaches_popup
           (Scenario.answering (lit "A short summary.")) Scenario.clock
           Scenario.engine_ToString Scenario.engine_type_error Cases.reliable None
           [Select Scenario.selection; SaveKey Scenario.credential;
            OpenPopup Cases.loaded]
           (Session [] (Cases.browser_with [] []))).
  reflexivity.
Defined.
